(** * CatFacts lab: the three fetch-and-report promise chains of [index.js]

    The script builds a URL with a template literal, calls [fetch], chains
    [.then(response => response.json())], a second [.then] that prints the
    parsed data, and a [.catch] that prints the error.  It does so three
    times: [getRandomFact], [getMultipleFacts], [getCatBreeds].

    The embedding below keeps that shape.  A promise chain is a computation
    that emits console and transport events and ends fulfilled, rejected or
    still pending; [then_] and [catch_] are the two promise combinators the
    script uses.  The remote server and the JSON decoder of the runtime are
    the environment: a [transport] tells, per URL, what [fetch] and
    [response.json()] settle to. *)

From Stdlib Require Import String Ascii List ZArith Lia Bool DecimalString.
Import ListNotations.
Open Scope string_scope.
Set Warnings "-register-all".

(** ** JavaScript values reachable from a parsed JSON body *)

(** [VUndefined] never comes out of the decoder; it is what a property read
    yields when the property is absent.  A number is carried as an integer:
    the numbers of the API ([length], pagination counters) are integral.
    The model covers the safe integers of JavaScript (magnitude below 2^53),
    which print in plain decimal; non-integral numbers, the negative zero
    and numbers large enough to print with an exponent are outside it, and
    so is the stack limit that a very deeply nested array would hit in
    [ToString]. *)
Inductive value : Type :=
| VUndefined
| VNull
| VBool (b : bool)
| VNum (z : Z)
| VStr (s : string)
| VArr (xs : list value)
| VObj (fields : list (string * value)).

(** The two error classes that can reach a [.catch] of the script:
    [TypeError] (a network failure of [fetch], a property read on
    [undefined]/[null], a call of something that is no function) and
    [SyntaxError] (the body is not JSON). *)
Inductive error : Type :=
| TypeError (message : string)
| SyntaxError (message : string).

Definition nl : string := String (ascii_of_nat 10) EmptyString.

Definition string_of_nat (n : nat) : string :=
  NilEmpty.string_of_uint (Nat.to_uint n).

Definition string_of_Z (z : Z) : string :=
  NilZero.string_of_int (Z.to_int z).

Fixpoint lookup (k : string) (fields : list (string * value)) : option value :=
  match fields with
  | [] => None
  | (k', v) :: rest => if String.eqb k k' then Some v else lookup k rest
  end.

Definition has_key (k : string) (fields : list (string * value)) : bool :=
  match lookup k fields with Some _ => true | None => false end.

(** ECMAScript [ToString], as a template literal applies it to [${...}].
    An array is joined with commas ([undefined] and [null] elements give the
    empty string); a plain object gives ["[object Object]"], unless an own
    [toString] data property shadows the inherited method, in which case the
    conversion throws. *)
Fixpoint ToString (v : value) : error + string :=
  match v with
  | VUndefined => inr "undefined"
  | VNull => inr "null"
  | VBool true => inr "true"
  | VBool false => inr "false"
  | VNum z => inr (string_of_Z z)
  | VStr s => inr s
  | VArr xs =>
      (fix join (l : list value) : error + string :=
         match l with
         | [] => inr EmptyString
         | x :: rest =>
             let sx := match x with
                       | VUndefined | VNull => inr EmptyString
                       | _ => ToString x
                       end in
             match sx with
             | inl e => inl e
             | inr s =>
                 match rest with
                 | [] => inr s
                 | _ :: _ =>
                     match join rest with
                     | inl e => inl e
                     | inr t => inr (s ++ "," ++ t)
                     end
                 end
             end
         end) xs
  | VObj fields =>
      if has_key "toString" fields
      then inl (TypeError "Cannot convert object to primitive value")
      else inr "[object Object]"
  end.

(** ** Events and promise chains *)

(** What a run leaves behind: a GET issued, a body read ([response.json()]
    called), a [console.log] call with its arguments, a [console.error] call
    with its label and the error object. *)
Inductive event : Type :=
| Fetch (url : string)
| BodyRead
| Log (args : list value)
| Err (label : string) (e : error).

Inductive settled (A : Type) : Type :=
| Fulfilled (a : A)
| Rejected (e : error)
| Pending.
Arguments Fulfilled {A} a.
Arguments Rejected {A} e.
Arguments Pending {A}.

(** A chain: the events emitted so far and the state of its last promise. *)
Definition chain (A : Type) : Type := (list event * settled A)%type.

Definition resolve {A} (a : A) : chain A := ([], Fulfilled a).
Definition throw {A} (e : error) : chain A := ([], Rejected e).
Definition never {A} : chain A := ([], Pending).
Definition emit (ev : event) : chain unit := ([ev], Fulfilled tt).

(** [p.then(f)]: [f] runs on the fulfilment value; a rejection or a pending
    promise passes through untouched. *)
Definition then_ {A B} (p : chain A) (f : A -> chain B) : chain B :=
  match p with
  | (t, Fulfilled a) => let (t', s) := f a in ((t ++ t')%list, s)
  | (t, Rejected e) => (t, Rejected e)
  | (t, Pending) => (t, Pending)
  end.

(** [p.catch(h)]: [h] runs on the rejection reason; a fulfilment passes
    through. *)
Definition catch_ {A} (p : chain A) (h : error -> chain A) : chain A :=
  match p with
  | (t, Rejected e) => let (t', s) := h e in ((t ++ t')%list, s)
  | other => other
  end.

Notation "x <- c1 ;; c2" := (then_ c1 (fun x => c2))
  (at level 61, c1 at next level, right associativity).
Notation "c1 ;; c2" := (then_ c1 (fun _ => c2))
  (at level 61, right associativity).

Definition trace {A} (c : chain A) : list event := fst c.
Definition outcome {A} (c : chain A) : settled A := snd c.

(** ** The environment: transport and decoder *)

(** What [response.json()] settles to.  The decoder rejects a text that is
    not JSON with a [SyntaxError]; a connection lost while the body streams
    in rejects the read with a [TypeError]. *)
Inductive body_outcome : Type :=
| BodyPending                       (* the body never finishes arriving *)
| BodyAborted (message : string)    (* the connection broke mid-body *)
| BodyInvalid (message : string)    (* the text is not JSON *)
| BodyJson (v : value).             (* the text decodes to [v] *)

Record Response : Type := mkResponse {
  status : Z;
  body : body_outcome
}.

Inductive fetch_outcome : Type :=
| FetchPending                       (* no answer ever *)
| FetchRejected (message : string)   (* DNS, refused connection, ... *)
| FetchResolved (r : Response).      (* an HTTP answer, whatever its status *)

Definition transport : Type := string -> fetch_outcome.

(** [fetch(url)]: rejects with a [TypeError] on a network failure only; an
    HTTP answer of any status fulfils the promise. *)
Definition fetch (net : transport) (url : string) : chain Response :=
  emit (Fetch url) ;;
  match net url with
  | FetchPending => never
  | FetchRejected m => throw (TypeError m)
  | FetchResolved r => resolve r
  end.

(** [response.json()]. *)
Definition json (response : Response) : chain value :=
  emit BodyRead ;;
  match body response with
  | BodyPending => never
  | BodyAborted m => throw (TypeError m)
  | BodyInvalid m => throw (SyntaxError m)
  | BodyJson v => resolve v
  end.

Definition console_log (args : list value) : chain unit := emit (Log args).
Definition console_error (label : string) (e : error) : chain unit :=
  emit (Err label e).

(** [o.k] for the property names the script reads ([fact], [data], [breed]),
    none of which lives on a prototype: reading from [undefined] or [null]
    throws, an object answers with its own property, every other value with
    [undefined]. *)
Definition get (o : value) (k : string) : chain value :=
  match o with
  | VUndefined =>
      throw (TypeError ("Cannot read properties of undefined (reading '" ++ k ++ "')"))
  | VNull =>
      throw (TypeError ("Cannot read properties of null (reading '" ++ k ++ "')"))
  | VObj fields =>
      resolve (match lookup k fields with Some v => v | None => VUndefined end)
  | _ => resolve VUndefined
  end.

Definition to_string (v : value) : chain string :=
  match ToString v with
  | inl e => throw e
  | inr s => resolve s
  end.

(** The loop of [Array.prototype.forEach]: elements in index order, the
    callback given the element and its index; a throwing callback ends it. *)
Fixpoint forEach_from (index : nat) (xs : list value)
    (callback : value -> nat -> chain unit) : chain unit :=
  match xs with
  | [] => resolve tt
  | x :: rest => callback x index ;; forEach_from (S index) rest callback
  end.

(** [o.forEach(callback)], with [expr] the source text of [o] as the engine
    quotes it in its message. *)
Definition forEach (o : value) (expr : string)
    (callback : value -> nat -> chain unit) : chain unit :=
  match o with
  | VUndefined =>
      throw (TypeError "Cannot read properties of undefined (reading 'forEach')")
  | VNull =>
      throw (TypeError "Cannot read properties of null (reading 'forEach')")
  | VArr xs => forEach_from 0 xs callback
  | _ => throw (TypeError (expr ++ ".forEach is not a function"))
  end.

(** ** The script *)

Definition baseUrl : string := "https://catfact.ninja".

Definition randomFactUrl : string := baseUrl ++ "/fact".
Definition randomFactLabel : string := "Error fetching random cat fact:".

Definition showRandomFact (data : value) : chain unit :=
  console_log [VStr "Random Cat Fact:"] ;;
  fact <- get data "fact" ;;
  console_log [fact].

Definition getRandomFact (net : transport) : chain unit :=
  catch_
    (data <- (response <- fetch net randomFactUrl ;; json response) ;;
     showRandomFact data)
    (fun error => console_error randomFactLabel error).

Definition numberOfFacts : nat := 3.

Definition multipleFactsUrl : string :=
  baseUrl ++ "/facts?limit=" ++ string_of_nat numberOfFacts.
Definition multipleFactsLabel : string := "Error fetching multiple cat facts:".
Definition multipleFactsHeader : string :=
  nl ++ string_of_nat numberOfFacts ++ " Random Cat Facts:".

Definition numbered (index : nat) (text : string) : string :=
  string_of_nat (index + 1) ++ ". " ++ text.

Definition showFactLine (fact : value) (index : nat) : chain unit :=
  f <- get fact "fact" ;;
  s <- to_string f ;;
  console_log [VStr (numbered index s)].

Definition showMultipleFacts (data : value) : chain unit :=
  console_log [VStr multipleFactsHeader] ;;
  d <- get data "data" ;;
  forEach d "data.data" showFactLine.

Definition getMultipleFacts (net : transport) : chain unit :=
  catch_
    (data <- (response <- fetch net multipleFactsUrl ;; json response) ;;
     showMultipleFacts data)
    (fun error => console_error multipleFactsLabel error).

Definition catBreedsUrl : string := baseUrl ++ "/breeds".
Definition catBreedsLabel : string := "Error fetching cat breeds:".
Definition catBreedsHeader : string := nl ++ "List of Cat Breeds:".

Definition showBreedLine (breed : value) (index : nat) : chain unit :=
  b <- get breed "breed" ;;
  s <- to_string b ;;
  console_log [VStr (numbered index s)].

Definition showCatBreeds (data : value) : chain unit :=
  console_log [VStr catBreedsHeader] ;;
  d <- get data "data" ;;
  forEach d "data.data" showBreedLine.

Definition getCatBreeds (net : transport) : chain unit :=
  catch_
    (data <- (response <- fetch net catBreedsUrl ;; json response) ;;
     showCatBreeds data)
    (fun error => console_error catBreedsLabel error).

(** The three reports, for statements that range over them. *)
Inductive report : Type := RandomFact | MultipleFacts | CatBreeds.

Definition url_of (r : report) : string :=
  match r with
  | RandomFact => randomFactUrl
  | MultipleFacts => multipleFactsUrl
  | CatBreeds => catBreedsUrl
  end.

Definition label_of (r : report) : string :=
  match r with
  | RandomFact => randomFactLabel
  | MultipleFacts => multipleFactsLabel
  | CatBreeds => catBreedsLabel
  end.

Definition projection_of (r : report) : value -> chain unit :=
  match r with
  | RandomFact => showRandomFact
  | MultipleFacts => showMultipleFacts
  | CatBreeds => showCatBreeds
  end.

Definition run (r : report) (net : transport) : chain unit :=
  match r with
  | RandomFact => getRandomFact net
  | MultipleFacts => getMultipleFacts net
  | CatBreeds => getCatBreeds net
  end.

(** The part the three reports share in front of their [.catch]: fetch,
    decode, then hand the data to the report's own callback. *)
Definition pipeline (net : transport) (url : string)
    (projection : value -> chain unit) : chain unit :=
  data <- (response <- fetch net url ;; json response) ;;
  projection data.

Definition attempt (r : report) (net : transport) : chain unit :=
  pipeline net (url_of r) (projection_of r).

(** ** What the console shows *)

Section Console.

(** [util.inspect] of the runtime, which [console.log] applies to every
    argument that is not a string. *)
Variable inspect : value -> string.

Definition format_arg (v : value) : string :=
  match v with
  | VStr s => s
  | _ => inspect v
  end.

(** One [console.log] call: the arguments separated by a blank.  (No call
    of the script passes a first argument with a [%] directive.) *)
Definition format_args (args : list value) : string :=
  String.concat " " (map format_arg args).

(** The standard output of a trace: each [console.log] call ends its text
    with a newline. *)
Fixpoint stdout (t : list event) : string :=
  match t with
  | [] => EmptyString
  | Log args :: rest => format_args args ++ nl ++ stdout rest
  | _ :: rest => stdout rest
  end.

End Console.

(** The [console.log] calls and the [console.error] calls of a trace. *)
Definition is_log (ev : event) : bool :=
  match ev with Log _ => true | _ => false end.
Definition is_err (ev : event) : bool :=
  match ev with Err _ _ => true | _ => false end.
Definition logs (t : list event) : list event := filter is_log t.
Definition errs (t : list event) : list event := filter is_err t.

(** ** Well-formed bodies *)

(** The string under key [k] of a record, when the record is an object that
    has one. *)
Definition text_of (k : string) (v : value) : option string :=
  match v with
  | VObj fields =>
      match lookup k fields with
      | Some (VStr s) => Some s
      | _ => None
      end
  | _ => None
  end.

(** The numbered lines for [texts], the first one numbered [index + 1]. *)
Fixpoint numbered_lines (index : nat) (texts : list string) : list event :=
  match texts with
  | [] => []
  | s :: rest => Log [VStr (numbered index s)] :: numbered_lines (S index) rest
  end.

(** The two reports that print a list. *)
Inductive listing : Type := Facts | Breeds.

Definition listing_report (c : listing) : report :=
  match c with Facts => MultipleFacts | Breeds => CatBreeds end.
Definition listing_key (c : listing) : string :=
  match c with Facts => "fact" | Breeds => "breed" end.
Definition listing_header (c : listing) : string :=
  match c with Facts => multipleFactsHeader | Breeds => catBreedsHeader end.
Definition listing_line (c : listing) : value -> nat -> chain unit :=
  match c with Facts => showFactLine | Breeds => showBreedLine end.

(** A report looks at the transport only under its own URL. *)
Definition run_on (r : report) (o : fetch_outcome) : chain unit :=
  run r (fun _ => o).

(** A projection only ever calls [console.log], and it settles. *)
Definition prints_only {A} (c : chain A) : Prop :=
  forallb is_log (trace c) = true /\ outcome c <> Pending.

Definition handler (r : report) : error -> chain unit :=
  fun error => console_error (label_of r) error.

(** ** The entry sequence and the event loop *)

Definition report_eq_dec (a b : report) : {a = b} + {a <> b}.
Proof. decide equality. Defined.

(** What of an answer has arrived after [level] deliveries: nothing, then
    the response (status line and headers, the body still on its way), then
    the body too. *)
Definition reveal (level : nat) (o : fetch_outcome) : fetch_outcome :=
  match level with
  | 0 => FetchPending
  | 1 =>
      match o with
      | FetchResolved resp => FetchResolved (mkResponse (status resp) BodyPending)
      | _ => o
      end
  | _ => o
  end.

(** How far the chain of a report has run after [level] deliveries. *)
Definition progress (r : report) (net : transport) (level : nat) : list event :=
  trace (run r (fun url => reveal level (net url))).

(** The callbacks that the next delivery lets run. *)
Definition news (r : report) (net : transport) (level : nat) : list event :=
  skipn (List.length (progress r net level)) (progress r net (S level)).

(** The console as the event loop fills it; every entry remembers the report
    it comes from ([None]: the top level of the script). *)
Record loop : Type := mkLoop {
  delivered : report -> nat;
  console : list (option report * event)
}.

Definition tagged (r : report) (t : list event) : list (option report * event) :=
  map (pair (Some r)) t.

Definition baseUrlLine : event :=
  Log [VStr "Base URL set up for CatFacts API:"; VStr baseUrl].

(** The synchronous run of the script, top to bottom: the base-URL line,
    then the three calls, each running up to its pending [fetch]. *)
Definition start (net : transport) : loop :=
  {| delivered := fun _ => 0;
     console :=
       ((None, baseUrlLine) ::
        tagged RandomFact (progress RandomFact net 0) ++
        tagged MultipleFacts (progress MultipleFacts net 0) ++
        tagged CatBreeds (progress CatBreeds net 0))%list |}.

(** One arrival for report [r]: its chain runs on from where it waited. *)
Definition deliver (net : transport) (st : loop) (r : report) : loop :=
  {| delivered := fun r' =>
       if report_eq_dec r r' then S (delivered st r) else delivered st r';
     console := (console st ++ tagged r (news r net (delivered st r)))%list |}.

(** The run under a schedule: the order in which the arrivals happen. *)
Definition exec (net : transport) (schedule : list report) : loop :=
  fold_left (deliver net) schedule (start net).

Definition from_report (r : report) (entry : option report * event) : bool :=
  match fst entry with
  | Some r' => if report_eq_dec r r' then true else false
  | None => false
  end.

(** The events of one report, in the order they reached the console. *)
Definition own (r : report) (out : list (option report * event)) : list event :=
  map snd (filter (from_report r) out).

Definition shown (out : list (option report * event)) : list event := map snd out.

(** ** Sample answers *)

Definition sample_fact_body : value :=
  VObj [("fact", VStr "Cats sleep 70% of their lives."); ("length", VNum 30)].

Definition sample_net (st : Z) (v : value) : transport :=
  fun _ => FetchResolved (mkResponse st (BodyJson v)).

Definition sample_three_facts : value :=
  VObj [("current_page", VNum 1);
        ("data", VArr [VObj [("fact", VStr "B"); ("length", VNum 1)];
                       VObj [("fact", VStr "A"); ("length", VNum 1)];
                       VObj [("fact", VStr "B"); ("length", VNum 1)]])].

Definition sample_no_breeds : value :=
  VObj [("current_page", VNum 1); ("data", VArr []); ("total", VNum 0)].

Definition sample_html_net : transport :=
  fun _ => FetchResolved
             (mkResponse 200 (BodyInvalid "Unexpected token < in JSON at position 0")).

Definition sample_offline_net : transport := fun _ => FetchRejected "fetch failed".

(** A transport that answers each of the three endpoints. *)
Definition sample_api (facts breeds : fetch_outcome) : transport :=
  fun url =>
    if String.eqb url randomFactUrl
    then FetchResolved (mkResponse 200 (BodyJson sample_fact_body))
    else if String.eqb url multipleFactsUrl then facts else breeds.

Definition sample_breeds : value :=
  VObj [("data", VArr [VObj [("breed", VStr "Abyssinian"); ("country", VStr "Ethiopia")];
                       VObj [("breed", VStr "Aegean"); ("country", VStr "Greece")]])].

Definition sample_facts_answer : fetch_outcome :=
  FetchResolved (mkResponse 200 (BodyJson sample_three_facts)).

Definition sample_breeds_answer : fetch_outcome :=
  FetchResolved (mkResponse 200 (BodyJson sample_breeds)).

Definition sample_schedule : list report :=
  [CatBreeds; MultipleFacts; RandomFact; MultipleFacts; CatBreeds; RandomFact].

Definition sample_order : list report := [CatBreeds; RandomFact; MultipleFacts].

(** ** Further observations on traces and bodies *)

Definition is_fetch (ev : event) : bool :=
  match ev with Fetch _ => true | _ => false end.
Definition is_body_read (ev : event) : bool :=
  match ev with BodyRead => true | _ => false end.

(** The header each callback prints first, and the property it reads
    first. *)
Definition header_of (r : report) : string :=
  match r with
  | RandomFact => "Random Cat Fact:"
  | MultipleFacts => multipleFactsHeader
  | CatBreeds => catBreedsHeader
  end.

Definition first_key (r : report) : string :=
  match r with
  | RandomFact => "fact"
  | MultipleFacts => "data"
  | CatBreeds => "data"
  end.

(** The text of the numbered lines, each ended by a newline. *)
Fixpoint numbered_text (index : nat) (texts : list string) : string :=
  match texts with
  | [] => EmptyString
  | s :: rest => numbered index s ++ nl ++ numbered_text (S index) rest
  end.


(** A [data] that is there but is no array: it has no [forEach] to call. *)
Definition lacks_forEach (d : value) : bool :=
  match d with
  | VBool _ | VNum _ | VStr _ | VObj _ => true
  | VUndefined | VNull | VArr _ => false
  end.

(** A line that prints: the callback, given the record at any index, logs
    the numbered text and returns. *)
Definition line_prints (c : listing) (x : value) (s : string) : Prop :=
  forall index,
    listing_line c x index = ([Log [VStr (numbered index s)]], Fulfilled tt).

(** The reports in the order in which their bodies arrive: a report
    completes at its second arrival (the first one is its response). *)
Fixpoint completions_rev (latest_first : list report) : list report :=
  match latest_first with
  | [] => []
  | r :: earlier =>
      (completions_rev earlier ++
       (if Nat.eqb (count_occ report_eq_dec earlier r) 1 then [r] else []))%list
  end.

Definition completions (schedule : list report) : list report :=
  completions_rev (rev schedule).

Definition sample_breeds_with_gap : value :=
  VObj [("data", VArr [VObj [("breed", VStr "Abyssinian")];
                       VNull;
                       VObj [("breed", VStr "Aegean")]])].

Definition sample_breeds_unnamed : value :=
  VObj [("data", VArr [VObj [("breed", VStr "Abyssinian")];
                       VObj [("country", VStr "Greece")];
                       VObj [("breed", VStr "Bengal")]])].

Definition sample_data_object : value :=
  VObj [("data", VObj [("fact", VStr "A")])].

Definition sample_not_found_body : value :=
  VObj [("message", VStr "Not Found"); ("code", VNum 404)].

Definition sample_silent_api : transport :=
  fun url =>
    if String.eqb url multipleFactsUrl then FetchPending
    else FetchResolved (mkResponse 200 (BodyJson sample_fact_body)).

(** * Properties *)

(** ** Basic facts about chains *)

Lemma then_fulfilled {A B} (t : list event) (a : A) (f : A -> chain B) :
  then_ (t, Fulfilled a) f = ((t ++ trace (f a))%list, outcome (f a)).
Proof. unfold then_, trace, outcome. destruct (f a); reflexivity. Qed.

Lemma run_unfold (r : report) (net : transport) :
  run r net = catch_ (attempt r net) (fun error => console_error (label_of r) error).
Proof. destruct r; reflexivity. Qed.

Lemma attempt_resolved (r : report) (net : transport) (resp : Response) (v : value) :
  net (url_of r) = FetchResolved resp ->
  body resp = BodyJson v ->
  attempt r net =
    ((Fetch (url_of r) :: BodyRead :: trace (projection_of r v))%list,
     outcome (projection_of r v)).
Proof.
  intros Hnet Hbody. unfold attempt, pipeline, fetch, json.
  rewrite Hnet. cbn. rewrite Hbody. cbn.
  destruct (projection_of r v); reflexivity.
Qed.

Lemma line_of_text (c : listing) (x : value) (s : string) (index : nat) :
  text_of (listing_key c) x = Some s ->
  listing_line c x index = ([Log [VStr (numbered index s)]], Fulfilled tt).
Proof.
  unfold text_of. destruct x; try discriminate.
  destruct c; cbn [listing_key listing_line]; unfold showFactLine, showBreedLine, get;
    intros H.
  - destruct (lookup "fact" fields) as [[]|]; try discriminate.
    injection H as ->. reflexivity.
  - destruct (lookup "breed" fields) as [[]|]; try discriminate.
    injection H as ->. reflexivity.
Qed.

Lemma forEach_texts (c : listing) (recs : list value) :
  forall (texts : list string) (index : nat),
    map (text_of (listing_key c)) recs = map Some texts ->
    forEach_from index recs (listing_line c) =
      (numbered_lines index texts, Fulfilled tt).
Proof.
  induction recs as [|x recs IH]; intros [|s texts] index H; try discriminate.
  - reflexivity.
  - cbn [map] in H. injection H as Hx Hrest.
    cbn [forEach_from numbered_lines].
    rewrite (line_of_text c x s index Hx), then_fulfilled.
    rewrite (IH texts (S index) Hrest). reflexivity.
Qed.

Lemma listing_projection (c : listing) (fields : list (string * value))
    (recs : list value) (texts : list string) :
  lookup "data" fields = Some (VArr recs) ->
  map (text_of (listing_key c)) recs = map Some texts ->
  projection_of (listing_report c) (VObj fields) =
    (Log [VStr (listing_header c)] :: numbered_lines 0 texts, Fulfilled tt).
Proof.
  intros Hdata Htexts.
  destruct c; cbn [listing_report projection_of listing_header];
    unfold showMultipleFacts, showCatBreeds, get; rewrite Hdata;
    unfold console_log, emit, resolve; rewrite !then_fulfilled;
    cbn [forEach trace outcome fst snd app].
  - pose proof (forEach_texts Facts recs texts 0 Htexts) as E.
    cbn [listing_line] in E. rewrite E. reflexivity.
  - pose proof (forEach_texts Breeds recs texts 0 Htexts) as E.
    cbn [listing_line] in E. rewrite E. reflexivity.
Qed.

Lemma run_run_on (r : report) (net : transport) :
  run r net = run_on r (net (url_of r)).
Proof.
  destruct r; unfold run_on, run, getRandomFact, getMultipleFacts, getCatBreeds, fetch;
    cbn [url_of]; reflexivity.
Qed.

Lemma run_resolved (r : report) (net : transport) (resp : Response) (v : value) :
  net (url_of r) = FetchResolved resp ->
  body resp = BodyJson v ->
  run r net =
    catch_ ((Fetch (url_of r) :: BodyRead :: trace (projection_of r v))%list,
            outcome (projection_of r v))
           (fun error => console_error (label_of r) error).
Proof.
  intros Hnet Hbody.
  rewrite run_unfold, (attempt_resolved r net resp v Hnet Hbody). reflexivity.
Qed.

Lemma listing_run (c : listing) (net : transport) (resp : Response)
    (fields : list (string * value)) (recs : list value) (texts : list string) :
  net (url_of (listing_report c)) = FetchResolved resp ->
  body resp = BodyJson (VObj fields) ->
  lookup "data" fields = Some (VArr recs) ->
  map (text_of (listing_key c)) recs = map Some texts ->
  run (listing_report c) net =
    (Fetch (url_of (listing_report c)) :: BodyRead ::
       Log [VStr (listing_header c)] :: numbered_lines 0 texts,
     Fulfilled tt).
Proof.
  intros Hnet Hbody Hdata Htexts.
  rewrite (run_resolved _ net resp _ Hnet Hbody).
  rewrite (listing_projection c fields recs texts Hdata Htexts). reflexivity.
Qed.

(** ** Successful reports *)

(** C2.  When the body decodes to an object whose [fact] is a string (a
    [{fact, length}] record, with or without further fields) and the status
    is 200, the standard output of the single-fact report is exactly
    ["Random Cat Fact:\n<fact>\n"]: nothing goes to the error channel and the
    chain ends fulfilled. *)
Theorem random_fact_output (inspect : value -> string) (net : transport)
    (resp : Response) (fields : list (string * value)) (f : string) :
  net randomFactUrl = FetchResolved resp ->
  status resp = 200%Z ->
  body resp = BodyJson (VObj fields) ->
  lookup "fact" fields = Some (VStr f) ->
  stdout inspect (trace (getRandomFact net)) = "Random Cat Fact:" ++ nl ++ f ++ nl /\
  trace (getRandomFact net) =
    [Fetch randomFactUrl; BodyRead; Log [VStr "Random Cat Fact:"]; Log [VStr f]] /\
  outcome (getRandomFact net) = Fulfilled tt.
Proof.
  intros Hnet _ Hbody Hfact.
  pose proof (run_resolved RandomFact net resp _ Hnet Hbody) as E.
  cbn [run projection_of url_of label_of] in E.
  unfold showRandomFact, get in E. rewrite Hfact in E.
  cbn in E. rewrite E. cbn. repeat split.
Qed.

Lemma random_fact_output_witness :
  stdout (fun _ => EmptyString) (trace (getRandomFact (sample_net 200 sample_fact_body))) =
    "Random Cat Fact:" ++ nl ++ "Cats sleep 70% of their lives." ++ nl /\
  trace (getRandomFact (sample_net 200 sample_fact_body)) =
    [Fetch randomFactUrl; BodyRead; Log [VStr "Random Cat Fact:"];
     Log [VStr "Cats sleep 70% of their lives."]] /\
  outcome (getRandomFact (sample_net 200 sample_fact_body)) = Fulfilled tt.
Proof.
  apply (random_fact_output (fun _ => EmptyString) (sample_net 200 sample_fact_body)
           (mkResponse 200 (BodyJson sample_fact_body))
           [("fact", VStr "Cats sleep 70% of their lives."); ("length", VNum 30)]
           "Cats sleep 70% of their lives."); reflexivity.
Defined.

(** C3.  When the body of the multiple-facts report decodes to an object
    whose [data] is an array of three records with facts [a], [b], [c], the
    report prints its header and then exactly the three lines ["1. a"],
    ["2. b"], ["3. c"]: one per record, in the order of the array, equal
    facts printed as often as they occur. *)
Theorem three_facts_in_order (inspect : value -> string) (net : transport)
    (resp : Response) (fields : list (string * value)) (recs : list value)
    (a b c : string) :
  net multipleFactsUrl = FetchResolved resp ->
  body resp = BodyJson (VObj fields) ->
  lookup "data" fields = Some (VArr recs) ->
  map (text_of "fact") recs = [Some a; Some b; Some c] ->
  getMultipleFacts net =
    ([Fetch multipleFactsUrl; BodyRead;
      Log [VStr (nl ++ "3 Random Cat Facts:")];
      Log [VStr ("1. " ++ a)]; Log [VStr ("2. " ++ b)]; Log [VStr ("3. " ++ c)]],
     Fulfilled tt) /\
  stdout inspect (trace (getMultipleFacts net)) =
    nl ++ "3 Random Cat Facts:" ++ nl ++
    "1. " ++ a ++ nl ++ "2. " ++ b ++ nl ++ "3. " ++ c ++ nl.
Proof.
  intros Hnet Hbody Hdata Htexts.
  pose proof (listing_run Facts net resp fields recs [a; b; c] Hnet Hbody Hdata Htexts) as E.
  cbn [listing_report run] in E. rewrite E. split.
  - reflexivity.
  - cbn. reflexivity.
Qed.

Lemma three_facts_in_order_witness :
  getMultipleFacts (sample_net 200 sample_three_facts) =
    ([Fetch multipleFactsUrl; BodyRead;
      Log [VStr (nl ++ "3 Random Cat Facts:")];
      Log [VStr "1. B"]; Log [VStr "2. A"]; Log [VStr "3. B"]],
     Fulfilled tt) /\
  stdout (fun _ => EmptyString) (trace (getMultipleFacts (sample_net 200 sample_three_facts))) =
    nl ++ "3 Random Cat Facts:" ++ nl ++
    "1. " ++ "B" ++ nl ++ "2. " ++ "A" ++ nl ++ "3. " ++ "B" ++ nl.
Proof.
  refine (three_facts_in_order (fun _ => EmptyString) (sample_net 200 sample_three_facts)
            (mkResponse 200 (BodyJson sample_three_facts)) _ _ "B" "A" "B"
            eq_refl eq_refl _ _).
  - reflexivity.
  - reflexivity.
Defined.

Lemma numbered_lines_length (texts : list string) :
  forall index, List.length (numbered_lines index texts) = List.length texts.
Proof.
  induction texts as [|s texts IH]; intros index; cbn; [reflexivity|].
  now rewrite IH.
Qed.

(** C10.  For the multiple-facts and the breeds report alike: when [data] is
    the empty array the report prints its header and nothing more, and ends
    fulfilled; and over well-formed collections (every record carries its
    text) the report prints one numbered line per record, so the numbered
    list is empty exactly when [data] is. *)
Theorem empty_data_header_only (c : listing) (net : transport) (resp : Response)
    (fields : list (string * value)) (recs : list value) (texts : list string) :
  net (url_of (listing_report c)) = FetchResolved resp ->
  body resp = BodyJson (VObj fields) ->
  lookup "data" fields = Some (VArr recs) ->
  map (text_of (listing_key c)) recs = map Some texts ->
  (recs = [] ->
   run (listing_report c) net =
     ([Fetch (url_of (listing_report c)); BodyRead; Log [VStr (listing_header c)]],
      Fulfilled tt)) /\
  (exists lines,
      run (listing_report c) net =
        (Fetch (url_of (listing_report c)) :: BodyRead ::
           Log [VStr (listing_header c)] :: lines, Fulfilled tt) /\
      List.length lines = List.length recs /\
      (lines = [] <-> recs = [])).
Proof.
  intros Hnet Hbody Hdata Htexts.
  pose proof (listing_run c net resp fields recs texts Hnet Hbody Hdata Htexts) as E.
  assert (Hlen : List.length texts = List.length recs).
  { rewrite <- (length_map Some texts), <- Htexts. apply length_map. }
  split.
  - intros ->. destruct texts; [exact E | discriminate].
  - exists (numbered_lines 0 texts). split; [exact E|].
    split; [now rewrite numbered_lines_length|].
    split; intros H.
    + apply length_zero_iff_nil. rewrite <- Hlen, <- (numbered_lines_length texts 0), H.
      reflexivity.
    + subst recs. destruct texts; [reflexivity | discriminate].
Qed.

Lemma empty_data_header_only_witness :
  run CatBreeds (sample_net 200 sample_no_breeds) =
    ([Fetch catBreedsUrl; BodyRead; Log [VStr catBreedsHeader]], Fulfilled tt) /\
  (exists lines,
      run CatBreeds (sample_net 200 sample_no_breeds) =
        (Fetch catBreedsUrl :: BodyRead :: Log [VStr catBreedsHeader] :: lines,
         Fulfilled tt) /\
      List.length lines = @List.length value [] /\
      (lines = [] <-> @nil value = [])).
Proof.
  destruct (empty_data_header_only Breeds (sample_net 200 sample_no_breeds)
              (mkResponse 200 (BodyJson sample_no_breeds))
              [("current_page", VNum 1); ("data", VArr []); ("total", VNum 0)]
              [] [] eq_refl eq_refl eq_refl eq_refl) as [H1 H2].
  split; [apply H1; reflexivity | exact H2].
Defined.

(** ** The shape of every run *)

Lemma then_resolve {A B} (a : A) (f : A -> chain B) : then_ (resolve a) f = f a.
Proof. unfold then_, resolve. destruct (f a); reflexivity. Qed.

Lemma line_shape (c : listing) (x : value) (index : nat) :
  (exists e, listing_line c x index = ([], Rejected e)) \/
  (exists s, listing_line c x index = ([Log [VStr (numbered index s)]], Fulfilled tt)).
Proof.
  assert (G : forall f : value,
             (exists e, (s <- to_string f ;; console_log [VStr (numbered index s)])
                        = ([], Rejected e)) \/
             (exists s0, (s <- to_string f ;; console_log [VStr (numbered index s)])
                        = ([Log [VStr (numbered index s0)]], Fulfilled tt))).
  { intros f. unfold to_string. destruct (ToString f) as [e|s].
    - left. exists e. reflexivity.
    - right. exists s. rewrite then_resolve. reflexivity. }
  destruct c; cbn [listing_line]; unfold showFactLine, showBreedLine;
    destruct x; cbn [get];
    try (left; eexists; reflexivity); rewrite then_resolve; apply G.
Qed.

Lemma forEach_from_prints (c : listing) (xs : list value) :
  forall index, prints_only (forEach_from index xs (listing_line c)).
Proof.
  induction xs as [|x xs IH]; intros index; cbn [forEach_from].
  - split; [reflexivity | discriminate].
  - destruct (line_shape c x index) as [[e ->] | [s ->]].
    + split; [reflexivity | discriminate].
    + rewrite then_fulfilled. destruct (IH (S index)) as [Ht Ho].
      split; [cbn; exact Ht | exact Ho].
Qed.

Lemma projection_prints (r : report) (v : value) : prints_only (projection_of r v).
Proof.
  assert (L : forall (c : listing) (d : value),
             prints_only (forEach d "data.data" (listing_line c))).
  { intros c d. destruct d; cbn [forEach];
      try (split; [reflexivity | discriminate]).
    apply forEach_from_prints. }
  assert (H : forall (h : string) (k : chain unit),
             prints_only k -> prints_only (console_log [VStr h] ;; k)).
  { intros h k [Ht Ho]. unfold console_log, emit. rewrite then_fulfilled.
    split; [cbn; exact Ht | exact Ho]. }
  destruct r; cbn [projection_of];
    unfold showRandomFact, showMultipleFacts, showCatBreeds; apply H;
    destruct v; cbn [get]; try (split; [reflexivity | discriminate]);
    rewrite then_resolve.
  - apply (L Facts).
  - apply (L Breeds).
Qed.

(** What a report does on each answer of the transport. *)
Lemma run_on_pending (r : report) :
  run_on r FetchPending = ([Fetch (url_of r)], Pending).
Proof. destruct r; reflexivity. Qed.

Lemma run_on_rejected (r : report) (m : string) :
  run_on r (FetchRejected m) =
    ([Fetch (url_of r); Err (label_of r) (TypeError m)], Fulfilled tt).
Proof. destruct r; reflexivity. Qed.

Lemma run_on_body_pending (r : report) (st : Z) :
  run_on r (FetchResolved (mkResponse st BodyPending)) =
    ([Fetch (url_of r); BodyRead], Pending).
Proof. destruct r; reflexivity. Qed.

Lemma run_on_body_aborted (r : report) (st : Z) (m : string) :
  run_on r (FetchResolved (mkResponse st (BodyAborted m))) =
    ([Fetch (url_of r); BodyRead; Err (label_of r) (TypeError m)], Fulfilled tt).
Proof. destruct r; reflexivity. Qed.

Lemma run_on_body_invalid (r : report) (st : Z) (m : string) :
  run_on r (FetchResolved (mkResponse st (BodyInvalid m))) =
    ([Fetch (url_of r); BodyRead; Err (label_of r) (SyntaxError m)], Fulfilled tt).
Proof. destruct r; reflexivity. Qed.

Lemma run_on_body_json (r : report) (st : Z) (v : value) :
  run_on r (FetchResolved (mkResponse st (BodyJson v))) =
    catch_ ((Fetch (url_of r) :: BodyRead :: trace (projection_of r v))%list,
            outcome (projection_of r v))
           (handler r).
Proof.
  unfold run_on.
  apply (run_resolved r _ (mkResponse st (BodyJson v)) v eq_refl eq_refl).
Qed.

(** The same case analysis for the part in front of [.catch]. *)
Lemma attempt_cases (r : report) (net : transport) :
  match net (url_of r) with
  | FetchPending => attempt r net = ([Fetch (url_of r)], Pending)
  | FetchRejected m => attempt r net = ([Fetch (url_of r)], Rejected (TypeError m))
  | FetchResolved resp =>
      match body resp with
      | BodyPending => attempt r net = ([Fetch (url_of r); BodyRead], Pending)
      | BodyAborted m =>
          attempt r net = ([Fetch (url_of r); BodyRead], Rejected (TypeError m))
      | BodyInvalid m =>
          attempt r net = ([Fetch (url_of r); BodyRead], Rejected (SyntaxError m))
      | BodyJson v =>
          attempt r net =
            ((Fetch (url_of r) :: BodyRead :: trace (projection_of r v))%list,
             outcome (projection_of r v))
      end
  end.
Proof.
  destruct (net (url_of r)) as [|m|resp] eqn:Hnet.
  - unfold attempt, pipeline, fetch. rewrite Hnet. reflexivity.
  - unfold attempt, pipeline, fetch. rewrite Hnet. reflexivity.
  - destruct (body resp) as [|m|m|v] eqn:Hbody.
    + unfold attempt, pipeline, fetch, json. rewrite Hnet. cbn. rewrite Hbody.
      reflexivity.
    + unfold attempt, pipeline, fetch, json. rewrite Hnet. cbn. rewrite Hbody.
      reflexivity.
    + unfold attempt, pipeline, fetch, json. rewrite Hnet. cbn. rewrite Hbody.
      reflexivity.
    + apply (attempt_resolved r net resp v Hnet Hbody).
Qed.

Lemma errs_of_logs (t : list event) : forallb is_log t = true -> errs t = [].
Proof.
  induction t as [|ev t IH]; [reflexivity|].
  cbn. destruct ev; cbn; try discriminate. exact IH.
Qed.

(** Nothing in front of the [.catch] writes to the error channel. *)
Lemma attempt_no_errs (r : report) (net : transport) : errs (trace (attempt r net)) = [].
Proof.
  pose proof (attempt_cases r net) as H.
  destruct (net (url_of r)) as [|m|resp]; [rewrite H; reflexivity ..|].
  destruct (body resp) as [|m|m|v]; [rewrite H; reflexivity ..|].
  rewrite H. cbn. apply errs_of_logs. apply projection_prints.
Qed.

Lemma run_of_attempt (r : report) (net : transport) :
  run r net =
    match outcome (attempt r net) with
    | Rejected e => ((trace (attempt r net) ++ [Err (label_of r) e])%list, Fulfilled tt)
    | Fulfilled a => (trace (attempt r net), Fulfilled a)
    | Pending => (trace (attempt r net), Pending)
    end.
Proof.
  rewrite run_unfold. destruct (attempt r net) as [t [a|e|]]; reflexivity.
Qed.

Lemma run_starts_with_fetch (r : report) (net : transport) :
  exists rest, trace (run r net) = Fetch (url_of r) :: rest.
Proof.
  rewrite run_of_attempt. pose proof (attempt_cases r net) as H.
  destruct (net (url_of r)) as [|m|resp].
  - rewrite H. eexists; reflexivity.
  - rewrite H. eexists; reflexivity.
  - destruct (body resp) as [|m|m|v]; rewrite H; cbn [outcome trace fst snd].
    + eexists; reflexivity.
    + eexists; reflexivity.
    + eexists; reflexivity.
    + destruct (outcome (projection_of r v)); eexists; reflexivity.
Qed.

(** ** Request URLs *)

(** C4.  The three request URLs are the base URL, one slash and the path:
    ["https://catfact.ninja/fact"], ["https://catfact.ninja/facts?limit=3"]
    (the limit after a ['?']) and ["https://catfact.ninja/breeds"]; and
    whatever the transport answers, the first thing each report does is to
    issue its GET to that URL. *)
Theorem request_urls :
  url_of RandomFact = "https://catfact.ninja/fact" /\
  url_of MultipleFacts = "https://catfact.ninja/facts?limit=3" /\
  url_of CatBreeds = "https://catfact.ninja/breeds" /\
  (forall r, exists path,
      url_of r = baseUrl ++ "/" ++ path /\
      String.prefix "/" path = false /\
      baseUrl = "https://catfact.ninja") /\
  (forall r net, exists rest, trace (run r net) = Fetch (url_of r) :: rest).
Proof.
  repeat split; try reflexivity.
  - intros r. destruct r.
    + exists "fact". repeat split.
    + exists "facts?limit=3". repeat split.
    + exists "breeds". repeat split.
  - intros r net. apply run_starts_with_fetch.
Qed.

(** ** Failing reports *)

Lemma errs_app (t u : list event) : errs (t ++ u)%list = (errs t ++ errs u)%list.
Proof. apply filter_app. Qed.

Lemma logs_app (t u : list event) : logs (t ++ u)%list = (logs t ++ logs u)%list.
Proof. apply filter_app. Qed.

(** C1, what fails.  A status-500 answer whose body is a fact record: the
    body is read and decoded, the callback prints the fact, and nothing
    fails. *)
Lemma status_500_is_projected :
  (400 <= status (mkResponse 500 (BodyJson sample_fact_body)))%Z /\
  getRandomFact (sample_net 500 sample_fact_body) =
    ([Fetch randomFactUrl; BodyRead; Log [VStr "Random Cat Fact:"];
      Log [VStr "Cats sleep 70% of their lives."]], Fulfilled tt) /\
  outcome (attempt RandomFact (sample_net 500 sample_fact_body)) = Fulfilled tt /\
  In BodyRead (trace (getRandomFact (sample_net 500 sample_fact_body))).
Proof.
  split; [cbn; lia|]. split; [reflexivity|]. split; [reflexivity|].
  cbn. right. left. reflexivity.
Qed.

(** C1, as the code has it.  The status code is never looked at: two
    answers that differ in their status only (one 200, one 500, say) drive
    a report through the very same run; every answer, whatever its status,
    has its body read; and a body that decodes is handed to the callback of
    the report, whose events and outcome are those of the pipeline. *)
Theorem status_not_inspected (r : report) (net net' : transport)
    (resp resp' : Response) :
  net (url_of r) = FetchResolved resp ->
  net' (url_of r) = FetchResolved resp' ->
  body resp = body resp' ->
  run r net = run r net' /\
  attempt r net = attempt r net' /\
  (exists rest, trace (run r net) = Fetch (url_of r) :: BodyRead :: rest) /\
  (forall v, body resp = BodyJson v ->
             attempt r net =
               ((Fetch (url_of r) :: BodyRead :: trace (projection_of r v))%list,
                outcome (projection_of r v))).
Proof.
  intros Hnet Hnet' Hbody.
  assert (Ha : attempt r net = attempt r net').
  { pose proof (attempt_cases r net) as H. pose proof (attempt_cases r net') as H'.
    rewrite Hnet in H. rewrite Hnet' in H'. rewrite <- Hbody in H'.
    destruct (body resp); congruence. }
  split; [rewrite !run_of_attempt, Ha; reflexivity|].
  split; [exact Ha|]. split.
  - rewrite run_of_attempt. pose proof (attempt_cases r net) as H. rewrite Hnet in H.
    destruct (body resp) as [|m|m|v]; rewrite H; cbn [outcome trace fst snd].
    + eexists; reflexivity.
    + eexists; reflexivity.
    + eexists; reflexivity.
    + destruct (outcome (projection_of r v)); eexists; reflexivity.
  - intros v Hv. apply (attempt_resolved r net resp v Hnet Hv).
Qed.

Lemma status_not_inspected_witness :
  run RandomFact (sample_net 200 sample_fact_body) =
    run RandomFact (sample_net 500 sample_fact_body) /\
  attempt RandomFact (sample_net 200 sample_fact_body) =
    attempt RandomFact (sample_net 500 sample_fact_body) /\
  (exists rest,
      trace (run RandomFact (sample_net 200 sample_fact_body)) =
        Fetch (url_of RandomFact) :: BodyRead :: rest) /\
  attempt RandomFact (sample_net 200 sample_fact_body) =
    ((Fetch (url_of RandomFact) :: BodyRead ::
        trace (projection_of RandomFact sample_fact_body))%list,
     outcome (projection_of RandomFact sample_fact_body)).
Proof.
  destruct (status_not_inspected RandomFact
              (sample_net 200 sample_fact_body) (sample_net 500 sample_fact_body)
              (mkResponse 200 (BodyJson sample_fact_body))
              (mkResponse 500 (BodyJson sample_fact_body))
              eq_refl eq_refl eq_refl) as [H1 [H2 [H3 H4]]].
  split; [exact H1|]. split; [exact H2|]. split; [exact H3|].
  apply H4. reflexivity.
Defined.

(** C5.  When the body is not JSON, the pipeline is rejected with the
    decoder's error (a [SyntaxError], the decode failure of the script)
    right after the body read, whatever callback it was given: the callback
    is never entered.  The report prints nothing on standard output and
    hands the error to its [.catch]. *)
Theorem invalid_body_rejected (r : report) (net : transport) (resp : Response)
    (m : string) (projection : value -> chain unit) :
  net (url_of r) = FetchResolved resp ->
  body resp = BodyInvalid m ->
  pipeline net (url_of r) projection =
    ([Fetch (url_of r); BodyRead], Rejected (SyntaxError m)) /\
  run r net =
    ([Fetch (url_of r); BodyRead; Err (label_of r) (SyntaxError m)], Fulfilled tt) /\
  logs (trace (run r net)) = [].
Proof.
  intros Hnet Hbody.
  assert (Hp : forall p, pipeline net (url_of r) p =
                         ([Fetch (url_of r); BodyRead], Rejected (SyntaxError m))).
  { intros p. unfold pipeline, fetch, json. rewrite Hnet. cbn. rewrite Hbody.
    reflexivity. }
  split; [apply Hp|].
  assert (Hr : run r net =
               ([Fetch (url_of r); BodyRead; Err (label_of r) (SyntaxError m)],
                Fulfilled tt)).
  { rewrite run_of_attempt. unfold attempt. rewrite Hp. reflexivity. }
  split; [exact Hr|]. rewrite Hr. reflexivity.
Qed.

Lemma invalid_body_rejected_witness :
  pipeline sample_html_net (url_of CatBreeds) showRandomFact =
    ([Fetch (url_of CatBreeds); BodyRead],
     Rejected (SyntaxError "Unexpected token < in JSON at position 0")) /\
  run CatBreeds sample_html_net =
    ([Fetch (url_of CatBreeds); BodyRead;
      Err (label_of CatBreeds) (SyntaxError "Unexpected token < in JSON at position 0")],
     Fulfilled tt) /\
  logs (trace (run CatBreeds sample_html_net)) = [].
Proof.
  apply (invalid_body_rejected CatBreeds sample_html_net
           (mkResponse 200 (BodyInvalid "Unexpected token < in JSON at position 0")));
    reflexivity.
Defined.

(** C7, what fails.  A multiple-facts body without [data]: the header is on
    standard output before the failure is noticed and logged. *)
Lemma header_precedes_failure :
  getMultipleFacts (sample_net 200 (VObj [])) =
    ([Fetch multipleFactsUrl; BodyRead;
      Log [VStr multipleFactsHeader];
      Err multipleFactsLabel
        (TypeError "Cannot read properties of undefined (reading 'forEach')")],
     Fulfilled tt) /\
  outcome (attempt MultipleFacts (sample_net 200 (VObj []))) =
    Rejected (TypeError "Cannot read properties of undefined (reading 'forEach')") /\
  logs (trace (getMultipleFacts (sample_net 200 (VObj [])))) =
    [Log [VStr multipleFactsHeader]].
Proof. repeat split. Qed.

Lemma projection_header (r : report) (v : value) :
  exists lines,
    trace (projection_of r v) = Log [VStr (header_of r)] :: lines /\
    forallb is_log lines = true.
Proof.
  pose proof (projection_prints r v) as [Hlogs _].
  assert (H : forall (h : string) (k : chain unit),
             trace (console_log [VStr h] ;; k) = Log [VStr h] :: trace k).
  { intros h k. unfold console_log, emit. rewrite then_fulfilled. reflexivity. }
  destruct r; cbn [projection_of header_of] in *;
    unfold showRandomFact, showMultipleFacts, showCatBreeds in *;
    rewrite H in *; eexists; (split; [reflexivity | exact Hlogs]).
Qed.

(** C7, as the code has it.  A failing report calls [console.error] exactly
    once, as the last thing it does, with the label of the report and the
    error; the chain then ends fulfilled.  When the failure comes before the
    callback (the network failed, or the body did not arrive whole or did
    not decode), nothing at all is printed on standard output.  When it
    comes inside the callback (the body had decoded), the header of the
    report is on standard output already, and between the header and the
    error line there are [console.log] calls only. *)
Theorem failure_logged_once (r : report) (net : transport) (e : error) :
  outcome (attempt r net) = Rejected e ->
  run r net = ((trace (attempt r net) ++ [Err (label_of r) e])%list, Fulfilled tt) /\
  errs (trace (run r net)) = [Err (label_of r) e] /\
  ((forall resp v, net (url_of r) = FetchResolved resp -> body resp <> BodyJson v) ->
   logs (trace (run r net)) = []) /\
  (forall resp v,
      net (url_of r) = FetchResolved resp -> body resp = BodyJson v ->
      exists lines,
        trace (run r net) =
          (Fetch (url_of r) :: BodyRead :: Log [VStr (header_of r)] ::
           lines ++ [Err (label_of r) e])%list /\
        forallb is_log lines = true /\
        outcome (projection_of r v) = Rejected e).
Proof.
  intros He.
  assert (Hr : run r net =
               ((trace (attempt r net) ++ [Err (label_of r) e])%list, Fulfilled tt)).
  { rewrite run_of_attempt, He. reflexivity. }
  split; [exact Hr|]. rewrite Hr. cbn [trace fst]. split; [|split].
  - rewrite errs_app, attempt_no_errs. reflexivity.
  - intros Hearly. pose proof (attempt_cases r net) as H.
    destruct (net (url_of r)) as [|m|resp]; [rewrite H; reflexivity ..|].
    destruct (body resp) as [|m|m|v] eqn:Hbody; [rewrite H; reflexivity ..|].
    exfalso. apply (Hearly resp v eq_refl). exact Hbody.
  - intros resp v Hnet Hbody.
    pose proof (attempt_resolved r net resp v Hnet Hbody) as Ha.
    destruct (projection_header r v) as [lines [Hlines Hlogs]].
    exists lines. rewrite Ha in He |- *. cbn [trace outcome fst snd] in He |- *.
    rewrite Hlines. repeat split; assumption.
Qed.

Lemma failure_logged_once_witness :
  run MultipleFacts (sample_net 200 sample_data_object) =
    ((trace (attempt MultipleFacts (sample_net 200 sample_data_object)) ++
      [Err multipleFactsLabel (TypeError "data.data.forEach is not a function")])%list,
     Fulfilled tt) /\
  errs (trace (run MultipleFacts (sample_net 200 sample_data_object))) =
    [Err multipleFactsLabel (TypeError "data.data.forEach is not a function")] /\
  (exists lines,
      trace (run MultipleFacts (sample_net 200 sample_data_object)) =
        (Fetch multipleFactsUrl :: BodyRead :: Log [VStr multipleFactsHeader] ::
         lines ++
         [Err multipleFactsLabel
            (TypeError "data.data.forEach is not a function")])%list /\
      forallb is_log lines = true /\
      outcome (projection_of MultipleFacts sample_data_object) =
        Rejected (TypeError "data.data.forEach is not a function")).
Proof.
  destruct (failure_logged_once MultipleFacts (sample_net 200 sample_data_object)
              (TypeError "data.data.forEach is not a function") eq_refl)
    as [H1 [H2 [_ H4]]].
  split; [exact H1|]. split; [exact H2|].
  apply (H4 (mkResponse 200 (BodyJson sample_data_object)) sample_data_object);
    reflexivity.
Defined.





(** ** The entry sequence and the order of completions *)

Lemma progress_run_on (r : report) (net : transport) (level : nat) :
  progress r net level = trace (run_on r (reveal level (net (url_of r)))).
Proof. unfold progress. rewrite run_run_on. reflexivity. Qed.

Lemma progress_zero (r : report) (net : transport) :
  progress r net 0 = [Fetch (url_of r)].
Proof. rewrite progress_run_on. cbn [reveal]. rewrite run_on_pending. reflexivity. Qed.

Lemma progress_full (r : report) (net : transport) (level : nat) :
  2 <= level -> progress r net level = trace (run r net).
Proof.
  intros H. rewrite progress_run_on, (run_run_on r net).
  destruct level as [|[|level]]; [lia | lia | reflexivity].
Qed.

Lemma run_on_reads_body (r : report) (resp : Response) :
  exists rest, trace (run_on r (FetchResolved resp)) = Fetch (url_of r) :: BodyRead :: rest.
Proof.
  destruct resp as [st [|m|m|v]].
  - rewrite run_on_body_pending. eexists; reflexivity.
  - rewrite run_on_body_aborted. eexists; reflexivity.
  - rewrite run_on_body_invalid. eexists; reflexivity.
  - rewrite run_on_body_json. unfold catch_.
    destruct (outcome (projection_of r v)); cbn [trace fst]; eexists; reflexivity.
Qed.

Lemma progress_extends (r : report) (net : transport) (level : nat) :
  exists new, progress r net (S level) = (progress r net level ++ new)%list.
Proof.
  rewrite !progress_run_on.
  destruct level as [|[|level]].
  - cbn [reveal]. rewrite run_on_pending. cbn [trace fst].
    destruct (net (url_of r)) as [|m|resp].
    + rewrite run_on_pending. exists []. reflexivity.
    + rewrite run_on_rejected. eexists; reflexivity.
    + rewrite run_on_body_pending. eexists; reflexivity.
  - cbn [reveal]. destruct (net (url_of r)) as [|m|resp].
    + exists []. now rewrite app_nil_r.
    + exists []. now rewrite app_nil_r.
    + rewrite run_on_body_pending. cbn [trace fst].
      destruct (run_on_reads_body r resp) as [rest ->]. exists rest. reflexivity.
  - exists []. now rewrite app_nil_r.
Qed.

Lemma progress_step (r : report) (net : transport) (level : nat) :
  progress r net (S level) = (progress r net level ++ news r net level)%list.
Proof.
  unfold news. destruct (progress_extends r net level) as [new E].
  rewrite E at 1. f_equal. rewrite E.
  rewrite skipn_app, skipn_all, Nat.sub_diag. reflexivity.
Qed.

Lemma own_app (r : report) (a b : list (option report * event)) :
  own r (a ++ b)%list = (own r a ++ own r b)%list.
Proof. unfold own. now rewrite filter_app, map_app. Qed.

Lemma own_tagged (r r' : report) (t : list event) :
  own r (tagged r' t) = if report_eq_dec r r' then t else [].
Proof.
  unfold own, tagged. induction t as [|ev t IH]; cbn.
  - destruct (report_eq_dec r r'); reflexivity.
  - unfold from_report at 1. cbn [fst].
    destruct (report_eq_dec r r'); cbn; [f_equal|]; exact IH.
Qed.

Lemma exec_snoc (net : transport) (schedule : list report) (r : report) :
  exec net (schedule ++ [r]) = deliver net (exec net schedule) r.
Proof. unfold exec. rewrite fold_left_app. reflexivity. Qed.

Lemma delivered_count (net : transport) (schedule : list report) (r : report) :
  delivered (exec net schedule) r = count_occ report_eq_dec schedule r.
Proof.
  induction schedule as [|x schedule IH] using rev_ind.
  - reflexivity.
  - rewrite exec_snoc, count_occ_app. cbn [deliver delivered count_occ].
    destruct (report_eq_dec x r) as [->|]; lia.
Qed.

(** Every report finds on the console exactly what its own chain has emitted
    so far, whatever the other two have been doing. *)
Lemma own_progress (net : transport) (schedule : list report) (r : report) :
  own r (console (exec net schedule)) =
    progress r net (delivered (exec net schedule) r).
Proof.
  induction schedule as [|x schedule IH] using rev_ind.
  - unfold exec. cbn [fold_left start console delivered].
    change ((None, baseUrlLine) :: ?l)%list with ([(None, baseUrlLine)] ++ l)%list.
    rewrite !own_app, !own_tagged, !progress_zero.
    destruct r; reflexivity.
  - rewrite exec_snoc. cbn [deliver console delivered].
    rewrite own_app, own_tagged, IH.
    destruct (report_eq_dec r x) as [->|Hne].
    + destruct (report_eq_dec x x) as [_|C]; [|contradiction].
      symmetry. apply progress_step.
    + destruct (report_eq_dec x r) as [E|_]; [congruence|].
      now rewrite app_nil_r.
Qed.

Lemma run_settles (r : report) (net : transport) (e : error) :
  outcome (run r net) <> Rejected e.
Proof.
  rewrite run_of_attempt. destruct (outcome (attempt r net)); discriminate.
Qed.

(** C6, what fails.  A bad status is no failure for the script and is not
    turned into a logged message: on a 404 answer whose body is the JSON
    error object of the server, the single-fact report writes nothing to the
    error channel and prints [undefined] as if it were the fact. *)
Lemma bad_status_is_not_logged :
  (400 <= status (mkResponse 404 (BodyJson sample_not_found_body)))%Z /\
  errs (trace (run RandomFact (sample_net 404 sample_not_found_body))) = [] /\
  run RandomFact (sample_net 404 sample_not_found_body) =
    ([Fetch randomFactUrl; BodyRead; Log [VStr "Random Cat Fact:"]; Log [VUndefined]],
     Fulfilled tt).
Proof. split; [cbn; lia|]. split; reflexivity. Qed.

Lemma run_on_any_status (r : report) (st st' : Z) (b : body_outcome) :
  run_on r (FetchResolved (mkResponse st b)) =
    run_on r (FetchResolved (mkResponse st' b)).
Proof.
  destruct b as [|m|m|v].
  - now rewrite !run_on_body_pending.
  - now rewrite !run_on_body_aborted.
  - now rewrite !run_on_body_invalid.
  - now rewrite !run_on_body_json.
Qed.

(** C6, as the code has it.  Take any two transports that agree on the
    endpoint of report [r] and differ at will on the other two (one of which
    may fail where the other succeeds), and any order of arrivals.  The
    chain of [r] never ends rejected, so nothing escapes to the process.  A
    failure of [r] itself, that is a rejection of its chain in front of
    [.catch], ends in its [console.error] call; a network failure and a body
    that does not decode are such rejections, a status is not: the report
    runs the same under any status.  And [r] puts the same events on the
    console under both transports: once its response and its body have
    arrived, exactly the events of its own run. *)
Theorem failures_are_contained (r : report) (net net' : transport)
    (schedule : list report) :
  net (url_of r) = net' (url_of r) ->
  (forall e, outcome (run r net) <> Rejected e) /\
  (forall e, outcome (attempt r net) = Rejected e ->
             exists before,
               trace (run r net) = (before ++ [Err (label_of r) e])%list /\
               outcome (run r net) = Fulfilled tt) /\
  (forall m, net (url_of r) = FetchRejected m ->
             outcome (attempt r net) = Rejected (TypeError m)) /\
  (forall resp m, net (url_of r) = FetchResolved resp ->
                  body resp = BodyInvalid m ->
                  outcome (attempt r net) = Rejected (SyntaxError m)) /\
  (forall resp st, net (url_of r) = FetchResolved resp ->
                   run_on r (FetchResolved (mkResponse st (body resp))) = run r net) /\
  own r (console (exec net schedule)) = own r (console (exec net' schedule)) /\
  (2 <= count_occ report_eq_dec schedule r ->
   own r (console (exec net' schedule)) = trace (run r net)).
Proof.
  intros Hsame. split; [apply run_settles|]. split.
  { intros e He. exists (trace (attempt r net)).
    rewrite run_of_attempt, He. split; reflexivity. }
  split.
  { intros m Hnet. pose proof (attempt_cases r net) as H. rewrite Hnet in H.
    now rewrite H. }
  split.
  { intros resp m Hnet Hbody. pose proof (attempt_cases r net) as H.
    rewrite Hnet, Hbody in H. now rewrite H. }
  split.
  { intros [st0 b] st Hnet. rewrite (run_run_on r net), Hnet. cbn [body].
    apply run_on_any_status. }
  assert (Hp : forall level, progress r net level = progress r net' level).
  { intros level. rewrite !progress_run_on, Hsame. reflexivity. }
  split.
  - rewrite !own_progress, !delivered_count. apply Hp.
  - intros Hboth. rewrite own_progress, delivered_count, <- Hp.
    apply progress_full, Hboth.
Qed.

Lemma failures_are_contained_witness :
  (forall e,
      outcome (run MultipleFacts
                 (sample_api sample_facts_answer (FetchRejected "fetch failed")))
      <> Rejected e) /\
  own MultipleFacts
    (console (exec (sample_api sample_facts_answer (FetchRejected "fetch failed"))
                sample_schedule)) =
  own MultipleFacts
    (console (exec (sample_api sample_facts_answer sample_breeds_answer)
                sample_schedule)) /\
  own MultipleFacts
    (console (exec (sample_api sample_facts_answer sample_breeds_answer)
                sample_schedule)) =
  trace (run MultipleFacts
           (sample_api sample_facts_answer (FetchRejected "fetch failed"))).
Proof.
  destruct (failures_are_contained MultipleFacts
              (sample_api sample_facts_answer (FetchRejected "fetch failed"))
              (sample_api sample_facts_answer sample_breeds_answer)
              sample_schedule eq_refl) as [H1 [_ [_ [_ [_ [H3 H4]]]]]].
  split; [exact H1|]. split; [exact H3|].
  apply H4. cbn. lia.
Defined.

Lemma shown_tagged (r : report) (t : list event) : shown (tagged r t) = t.
Proof.
  unfold shown, tagged. rewrite map_map. cbn. apply map_id.
Qed.

(** Nothing is printed on standard output before the body has arrived. *)
Lemma logs_progress_one (r : report) (net : transport) :
  logs (progress r net 1) = [].
Proof.
  rewrite progress_run_on. cbn [reveal].
  destruct (net (url_of r)) as [|m|resp].
  - now rewrite run_on_pending.
  - now rewrite run_on_rejected.
  - now rewrite run_on_body_pending.
Qed.

Lemma logs_news_zero (r : report) (net : transport) : logs (news r net 0) = [].
Proof.
  pose proof (logs_progress_one r net) as H.
  rewrite progress_step, logs_app, progress_zero in H. exact H.
Qed.

Lemma logs_news_one (r : report) (net : transport) :
  logs (news r net 1) = logs (trace (run r net)).
Proof.
  rewrite <- (progress_full r net 2) by lia.
  rewrite (progress_step r net 1), logs_app, logs_progress_one. reflexivity.
Qed.

(** ** More on the list reports *)

Lemma string_app_assoc (a b c : string) : (a ++ b) ++ c = a ++ (b ++ c).
Proof. induction a as [|ch a IH]; cbn; [reflexivity | now rewrite IH]. Qed.

Lemma stdout_app (inspect : value -> string) (t u : list event) :
  stdout inspect (t ++ u)%list = stdout inspect t ++ stdout inspect u.
Proof.
  induction t as [|ev t IH]; [reflexivity|].
  destruct ev; cbn [app stdout]; try exact IH.
  rewrite IH, !string_app_assoc. reflexivity.
Qed.

Lemma stdout_numbered_lines (inspect : value -> string) (texts : list string) :
  forall index, stdout inspect (numbered_lines index texts) = numbered_text index texts.
Proof.
  induction texts as [|s texts IH]; intros index; [reflexivity|].
  cbn [numbered_lines stdout numbered_text]. rewrite IH. reflexivity.
Qed.

Lemma logs_numbered_lines (texts : list string) :
  forall index, logs (numbered_lines index texts) = numbered_lines index texts.
Proof.
  induction texts as [|s texts IH]; intros index; [reflexivity|].
  cbn. f_equal. apply IH.
Qed.

Lemma errs_numbered_lines (texts : list string) :
  forall index, errs (numbered_lines index texts) = [].
Proof.
  induction texts as [|s texts IH]; intros index; [reflexivity|].
  cbn. apply IH.
Qed.

(** X1.  A list report prints as many numbered lines as the server sends
    records, whatever their number: the header (which for the facts always
    names 3) and then line [i + 1] for record [i], in order, nothing on the
    error channel. *)
Theorem listing_output (inspect : value -> string) (c : listing) (net : transport)
    (resp : Response) (fields : list (string * value)) (recs : list value)
    (texts : list string) :
  net (url_of (listing_report c)) = FetchResolved resp ->
  body resp = BodyJson (VObj fields) ->
  lookup "data" fields = Some (VArr recs) ->
  map (text_of (listing_key c)) recs = map Some texts ->
  stdout inspect (trace (run (listing_report c) net)) =
    listing_header c ++ nl ++ numbered_text 0 texts /\
  logs (trace (run (listing_report c) net)) =
    Log [VStr (listing_header c)] :: numbered_lines 0 texts /\
  errs (trace (run (listing_report c) net)) = [] /\
  outcome (run (listing_report c) net) = Fulfilled tt.
Proof.
  intros Hnet Hbody Hdata Htexts.
  rewrite (listing_run c net resp fields recs texts Hnet Hbody Hdata Htexts).
  cbn [trace outcome fst snd]. repeat split.
  - cbn [stdout]. rewrite stdout_numbered_lines. reflexivity.
  - cbn. now rewrite logs_numbered_lines.
  - cbn. apply errs_numbered_lines.
Qed.

Lemma listing_output_witness :
  stdout (fun _ => EmptyString) (trace (run CatBreeds (sample_net 200 sample_breeds))) =
    catBreedsHeader ++ nl ++ numbered_text 0 ["Abyssinian"; "Aegean"] /\
  logs (trace (run CatBreeds (sample_net 200 sample_breeds))) =
    Log [VStr catBreedsHeader] :: numbered_lines 0 ["Abyssinian"; "Aegean"] /\
  errs (trace (run CatBreeds (sample_net 200 sample_breeds))) = [] /\
  outcome (run CatBreeds (sample_net 200 sample_breeds)) = Fulfilled tt.
Proof.
  refine (listing_output (fun _ => EmptyString) Breeds (sample_net 200 sample_breeds)
            (mkResponse 200 (BodyJson sample_breeds)) _ _ ["Abyssinian"; "Aegean"]
            eq_refl eq_refl _ _); reflexivity.
Defined.

Lemma forEach_lines (c : listing) (recs : list value) (texts : list string) :
  Forall2 (line_prints c) recs texts ->
  forall index,
    forEach_from index recs (listing_line c) =
      (numbered_lines index texts, Fulfilled tt).
Proof.
  induction 1 as [|x s recs texts Hx _ IH]; intros index; [reflexivity|].
  cbn [forEach_from numbered_lines].
  rewrite (Hx index), then_fulfilled, (IH (S index)). reflexivity.
Qed.

Lemma texts_print (c : listing) (recs : list value) :
  forall texts,
    map (text_of (listing_key c)) recs = map Some texts ->
    Forall2 (line_prints c) recs texts.
Proof.
  induction recs as [|x recs IH]; intros [|s texts] H; try discriminate.
  - constructor.
  - cbn [map] in H. injection H as Hx Hrest. constructor.
    + intros index. apply line_of_text, Hx.
    + apply IH, Hrest.
Qed.

(** The loop over a list whose record [x] makes the callback throw: the
    records before it are printed, the ones after it are never visited. *)
Lemma forEach_stops (c : listing) (x : value) (e : error) (rest : list value) :
  (forall index, listing_line c x index = ([], Rejected e)) ->
  forall (good : list value) (texts : list string) (index : nat),
    Forall2 (line_prints c) good texts ->
    forEach_from index (good ++ x :: rest) (listing_line c) =
      (numbered_lines index texts, Rejected e).
Proof.
  intros Hx good texts index H. revert index.
  induction H as [|g s good texts Hg _ IH]; intros index.
  - cbn [app forEach_from numbered_lines]. rewrite (Hx index). reflexivity.
  - cbn [app forEach_from numbered_lines].
    rewrite (Hg index), then_fulfilled, (IH (S index)). reflexivity.
Qed.

Lemma listing_projection_of (c : listing) (fields : list (string * value))
    (d : value) :
  lookup "data" fields = Some d ->
  projection_of (listing_report c) (VObj fields) =
    ((Log [VStr (listing_header c)] ::
      trace (forEach d "data.data" (listing_line c)))%list,
     outcome (forEach d "data.data" (listing_line c))).
Proof.
  intros Hdata.
  destruct c; cbn [listing_report projection_of listing_header listing_line];
    unfold showMultipleFacts, showCatBreeds, get; rewrite Hdata;
    unfold console_log, emit, resolve; rewrite !then_fulfilled; reflexivity.
Qed.

(** X2.  A [null] among the records stops a list report in the middle: the
    header and the lines of the records before it are printed, the read of
    the record's text throws a [TypeError], the records after it are never
    printed, and the error is logged under the report's label. *)
Theorem null_record_stops_list (c : listing) (net : transport) (resp : Response)
    (fields : list (string * value)) (good rest : list value) (texts : list string) :
  net (url_of (listing_report c)) = FetchResolved resp ->
  body resp = BodyJson (VObj fields) ->
  lookup "data" fields = Some (VArr (good ++ VNull :: rest)) ->
  map (text_of (listing_key c)) good = map Some texts ->
  run (listing_report c) net =
    ((Fetch (url_of (listing_report c)) :: BodyRead ::
      Log [VStr (listing_header c)] :: numbered_lines 0 texts ++
      [Err (label_of (listing_report c))
         (TypeError ("Cannot read properties of null (reading '"
                     ++ listing_key c ++ "')"))])%list,
     Fulfilled tt).
Proof.
  intros Hnet Hbody Hdata Htexts.
  rewrite (run_resolved _ net resp _ Hnet Hbody).
  rewrite (listing_projection_of c fields _ Hdata). cbn [forEach].
  assert (Hx : forall index,
             listing_line c VNull index =
               ([], Rejected (TypeError ("Cannot read properties of null (reading '"
                                         ++ listing_key c ++ "')")))).
  { intros index. destruct c; reflexivity. }
  rewrite (forEach_stops c VNull _ rest Hx good texts 0
             (texts_print c good texts Htexts)).
  reflexivity.
Qed.

Lemma null_record_stops_list_witness :
  run CatBreeds (sample_net 200 sample_breeds_with_gap) =
    ([Fetch catBreedsUrl; BodyRead; Log [VStr catBreedsHeader];
      Log [VStr "1. Abyssinian"];
      Err catBreedsLabel
        (TypeError "Cannot read properties of null (reading 'breed')")],
     Fulfilled tt).
Proof.
  refine (null_record_stops_list Breeds (sample_net 200 sample_breeds_with_gap)
            (mkResponse 200 (BodyJson sample_breeds_with_gap)) _
            [VObj [("breed", VStr "Abyssinian")]]
            [VObj [("breed", VStr "Aegean")]] ["Abyssinian"]
            eq_refl eq_refl _ _); reflexivity.
Defined.

(** X3.  A record that is an object without the text property does not stop
    a list report: its line reads [undefined] under its own number and the
    records after it are printed as usual. *)
Theorem missing_text_prints_undefined (c : listing) (net : transport)
    (resp : Response) (fields record : list (string * value))
    (before after : list value) (texts_before texts_after : list string) :
  net (url_of (listing_report c)) = FetchResolved resp ->
  body resp = BodyJson (VObj fields) ->
  lookup "data" fields = Some (VArr (before ++ VObj record :: after)) ->
  lookup (listing_key c) record = None ->
  map (text_of (listing_key c)) before = map Some texts_before ->
  map (text_of (listing_key c)) after = map Some texts_after ->
  run (listing_report c) net =
    (Fetch (url_of (listing_report c)) :: BodyRead ::
     Log [VStr (listing_header c)] ::
     numbered_lines 0 (texts_before ++ "undefined" :: texts_after),
     Fulfilled tt).
Proof.
  intros Hnet Hbody Hdata Hkey Hb Ha.
  rewrite (run_resolved _ net resp _ Hnet Hbody).
  rewrite (listing_projection_of c fields _ Hdata). cbn [forEach].
  rewrite (forEach_lines c _ (texts_before ++ "undefined" :: texts_after)).
  - reflexivity.
  - apply Forall2_app; [apply texts_print, Hb|].
    constructor; [|apply texts_print, Ha].
    intros index. destruct c; cbn [listing_line listing_key] in *;
      unfold showFactLine, showBreedLine, get; rewrite Hkey; reflexivity.
Qed.

Lemma missing_text_prints_undefined_witness :
  run CatBreeds (sample_net 200 sample_breeds_unnamed) =
    ([Fetch catBreedsUrl; BodyRead; Log [VStr catBreedsHeader];
      Log [VStr "1. Abyssinian"]; Log [VStr "2. undefined"]; Log [VStr "3. Bengal"]],
     Fulfilled tt).
Proof.
  refine (missing_text_prints_undefined Breeds (sample_net 200 sample_breeds_unnamed)
            (mkResponse 200 (BodyJson sample_breeds_unnamed)) _
            [("country", VStr "Greece")]
            [VObj [("breed", VStr "Abyssinian")]] [VObj [("breed", VStr "Bengal")]]
            ["Abyssinian"] ["Bengal"]
            eq_refl eq_refl _ _ _ _); reflexivity.
Defined.

(** X4.  When [data] is there but is no array (an object, a string, a
    number, a boolean), a list report prints its header, fails on the
    [forEach] call with "data.data.forEach is not a function", and logs that
    under its label. *)
Theorem data_not_array (c : listing) (net : transport) (resp : Response)
    (fields : list (string * value)) (d : value) :
  net (url_of (listing_report c)) = FetchResolved resp ->
  body resp = BodyJson (VObj fields) ->
  lookup "data" fields = Some d ->
  lacks_forEach d = true ->
  run (listing_report c) net =
    ([Fetch (url_of (listing_report c)); BodyRead;
      Log [VStr (listing_header c)];
      Err (label_of (listing_report c))
        (TypeError "data.data.forEach is not a function")],
     Fulfilled tt).
Proof.
  intros Hnet Hbody Hdata Hd.
  rewrite (run_resolved _ net resp _ Hnet Hbody).
  rewrite (listing_projection_of c fields _ Hdata).
  destruct d; try discriminate; reflexivity.
Qed.

Lemma data_not_array_witness :
  run MultipleFacts (sample_net 200 sample_data_object) =
    ([Fetch multipleFactsUrl; BodyRead; Log [VStr multipleFactsHeader];
      Err multipleFactsLabel (TypeError "data.data.forEach is not a function")],
     Fulfilled tt).
Proof.
  refine (data_not_array Facts (sample_net 200 sample_data_object)
            (mkResponse 200 (BodyJson sample_data_object)) _
            (VObj [("fact", VStr "A")]) eq_refl eq_refl _ _); reflexivity.
Defined.

(** ** More on failing and silent reports *)

(** X5.  When the body is the JSON text [null], every report prints its
    header and then fails on its first property read with a [TypeError]
    that names the property, logged under the report's label. *)
Theorem null_body_fails_after_header (r : report) (net : transport) (resp : Response) :
  net (url_of r) = FetchResolved resp ->
  body resp = BodyJson VNull ->
  run r net =
    ([Fetch (url_of r); BodyRead; Log [VStr (header_of r)];
      Err (label_of r)
        (TypeError ("Cannot read properties of null (reading '"
                    ++ first_key r ++ "')"))],
     Fulfilled tt).
Proof.
  intros Hnet Hbody. rewrite (run_resolved r net resp VNull Hnet Hbody).
  destruct r; reflexivity.
Qed.

Lemma null_body_fails_after_header_witness :
  run RandomFact (sample_net 404 VNull) =
    ([Fetch randomFactUrl; BodyRead; Log [VStr "Random Cat Fact:"];
      Err randomFactLabel
        (TypeError "Cannot read properties of null (reading 'fact')")],
     Fulfilled tt).
Proof.
  apply (null_body_fails_after_header RandomFact (sample_net 404 VNull)
           (mkResponse 404 (BodyJson VNull))); reflexivity.
Defined.

(** X6.  When the request itself fails, the report never reads a body and
    prints nothing on standard output: it issues its GET and logs the
    [TypeError] of [fetch] under its label, once. *)
Theorem network_failure_logged (inspect : value -> string) (r : report)
    (net : transport) (m : string) :
  net (url_of r) = FetchRejected m ->
  run r net = ([Fetch (url_of r); Err (label_of r) (TypeError m)], Fulfilled tt) /\
  filter is_body_read (trace (run r net)) = [] /\
  stdout inspect (trace (run r net)) = EmptyString.
Proof.
  intros Hnet. rewrite run_run_on, Hnet, run_on_rejected. repeat split.
Qed.

Lemma network_failure_logged_witness :
  run MultipleFacts sample_offline_net =
    ([Fetch multipleFactsUrl; Err multipleFactsLabel (TypeError "fetch failed")],
     Fulfilled tt) /\
  filter is_body_read (trace (run MultipleFacts sample_offline_net)) = [] /\
  stdout (fun _ => EmptyString) (trace (run MultipleFacts sample_offline_net)) =
    EmptyString.
Proof.
  apply (network_failure_logged (fun _ => EmptyString) MultipleFacts
           sample_offline_net "fetch failed"); reflexivity.
Defined.

Lemma logs_no_fetch (t : list event) :
  forallb is_log t = true ->
  filter is_fetch t = [] /\ filter is_body_read t = [].
Proof.
  induction t as [|ev t IH]; [split; reflexivity|].
  cbn. destruct ev; cbn; try discriminate. exact IH.
Qed.

Lemma attempt_requests (r : report) (net : transport) :
  filter is_fetch (trace (attempt r net)) = [Fetch (url_of r)] /\
  List.length (filter is_body_read (trace (attempt r net))) <= 1.
Proof.
  pose proof (attempt_cases r net) as H.
  destruct (net (url_of r)) as [|m|resp];
    [rewrite H; split; [reflexivity | cbn; lia] ..|].
  destruct (body resp) as [|m|m|v];
    [rewrite H; split; [reflexivity | cbn; lia] ..|].
  rewrite H. cbn [trace fst filter is_fetch is_body_read].
  destruct (logs_no_fetch _ (proj1 (projection_prints r v))) as [-> ->].
  split; [reflexivity | cbn; lia].
Qed.

Lemma filter_snoc_false {A} (f : A -> bool) (t : list A) (x : A) :
  f x = false -> filter f (t ++ [x]) = filter f t.
Proof. intros H. rewrite filter_app. cbn. rewrite H. apply app_nil_r. Qed.

Lemma run_requests (r : report) (net : transport) :
  filter is_fetch (trace (run r net)) = [Fetch (url_of r)] /\
  List.length (filter is_body_read (trace (run r net))) <= 1.
Proof.
  destruct (attempt_requests r net) as [Hf Hb].
  rewrite run_of_attempt.
  destruct (outcome (attempt r net)); cbn [trace fst];
    rewrite ?filter_snoc_false by reflexivity; split; assumption.
Qed.

(** X7.  Whatever the transport answers, a report issues exactly one GET,
    to its own URL, and reads a body at most once: no retry, no second
    request, no second read. *)
Theorem one_request_per_report (r : report) (net : transport) :
  filter is_fetch (trace (run r net)) = [Fetch (url_of r)] /\
  List.length (filter is_body_read (trace (run r net))) <= 1.
Proof. apply run_requests. Qed.

(** X8.  A report writes to the error channel exactly when the part of its
    chain in front of [.catch] is rejected, and then once: a report that
    succeeds, or whose answer never comes, calls [console.error] not at
    all. *)
Theorem error_iff_rejected (r : report) (net : transport) :
  (errs (trace (run r net)) <> [] <-> exists e, outcome (attempt r net) = Rejected e) /\
  List.length (errs (trace (run r net))) <= 1.
Proof.
  rewrite run_of_attempt. pose proof (attempt_no_errs r net) as Hno.
  destruct (outcome (attempt r net)) as [a|e|]; cbn [trace fst].
  - rewrite Hno. split; [|cbn; lia]. split; [intros C; now elim C|].
    intros [e He]; discriminate He.
  - rewrite errs_app, Hno. cbn. split; [|lia]. split; [|discriminate].
    intros _. now exists e.
  - rewrite Hno. split; [|cbn; lia]. split; [intros C; now elim C|].
    intros [e He]; discriminate He.
Qed.

Lemma err_in_run (r : report) (net : transport) (label : string) (e : error) :
  In (Err label e) (trace (run r net)) ->
  label = label_of r /\ outcome (attempt r net) = Rejected e.
Proof.
  intros Hin.
  assert (Hf : In (Err label e) (errs (trace (run r net)))).
  { apply filter_In. split; [exact Hin | reflexivity]. }
  rewrite run_of_attempt in Hf. pose proof (attempt_no_errs r net) as Hno.
  destruct (outcome (attempt r net)) as [a|e'|]; cbn [trace fst] in Hf.
  - rewrite Hno in Hf. destruct Hf.
  - rewrite errs_app, Hno in Hf. cbn in Hf. destruct Hf as [E|[]].
    injection E as <- <-. split; reflexivity.
  - rewrite Hno in Hf. destruct Hf.
Qed.

Lemma label_of_injective (r r' : report) : label_of r = label_of r' -> r = r'.
Proof. destruct r, r'; intros H; try reflexivity; discriminate H. Qed.

(** X9.  The label of an error line tells which report failed: two error
    entries with the same label, in whatever runs, come from the same
    report, and the error they carry is the one its chain was rejected
    with. *)
Theorem error_label_identifies_report (r r' : report) (net net' : transport)
    (label : string) (e e' : error) :
  In (Err label e) (trace (run r net)) ->
  In (Err label e') (trace (run r' net')) ->
  r = r' /\ outcome (attempt r net) = Rejected e.
Proof.
  intros H H'.
  destruct (err_in_run r net label e H) as [Hl He].
  destruct (err_in_run r' net' label e' H') as [Hl' _].
  split; [apply label_of_injective; congruence | exact He].
Qed.

Lemma error_label_identifies_report_witness :
  CatBreeds = CatBreeds /\
  outcome (attempt CatBreeds sample_offline_net) = Rejected (TypeError "fetch failed").
Proof.
  apply (error_label_identifies_report CatBreeds CatBreeds
           sample_offline_net sample_html_net catBreedsLabel
           (TypeError "fetch failed")
           (SyntaxError "Unexpected token < in JSON at position 0")).
  - cbn. right. left. reflexivity.
  - cbn. right. right. left. reflexivity.
Defined.

(** ** More on the whole script *)

Lemma progress_requests (r : report) (net : transport) (level : nat) :
  filter is_fetch (progress r net level) = [Fetch (url_of r)].
Proof. unfold progress. apply run_requests. Qed.

Lemma news_no_fetch (r : report) (net : transport) (level : nat) :
  filter is_fetch (news r net level) = [].
Proof.
  pose proof (progress_requests r net (S level)) as H.
  rewrite progress_step, filter_app, progress_requests in H.
  injection H as H. exact H.
Qed.

Lemma filter_shown_tagged (f : event -> bool) (r : report) (t : list event) :
  filter f (shown (tagged r t)) = filter f t.
Proof. now rewrite shown_tagged. Qed.

(** X10.  Whatever the answers and in whatever order they arrive, the
    script sends exactly three requests, the ones of its three calls in
    source order; no arrival ever triggers another request. *)
Theorem three_requests_in_all (net : transport) (schedule : list report) :
  filter is_fetch (shown (console (exec net schedule))) =
    [Fetch randomFactUrl; Fetch multipleFactsUrl; Fetch catBreedsUrl].
Proof.
  induction schedule as [|x schedule IH] using rev_ind.
  - unfold exec. cbn [fold_left start console]. rewrite !progress_zero. reflexivity.
  - rewrite exec_snoc. cbn [deliver console]. unfold shown in *.
    rewrite map_app, filter_app, IH.
    pose proof (filter_shown_tagged is_fetch x
                  (news x net (delivered (exec net schedule) x))) as E.
    unfold shown in E. rewrite E, news_no_fetch. reflexivity.
Qed.

Lemma reveal_pending (level : nat) : reveal level FetchPending = FetchPending.
Proof. destruct level as [|[|level]]; reflexivity. Qed.

(** X11.  A request that is never answered leaves its report silent for
    good: in every run of the script the report's only trace is its GET, no
    line on standard output and none on the error channel, however many
    arrivals the other reports see. *)
Theorem unanswered_request_stays_silent (net : transport) (schedule : list report)
    (r : report) :
  net (url_of r) = FetchPending ->
  own r (console (exec net schedule)) = [Fetch (url_of r)] /\
  run r net = ([Fetch (url_of r)], Pending).
Proof.
  intros Hnet. split.
  - rewrite own_progress, progress_run_on, Hnet, reveal_pending, run_on_pending.
    reflexivity.
  - rewrite run_run_on, Hnet. apply run_on_pending.
Qed.

Lemma unanswered_request_stays_silent_witness :
  own MultipleFacts (console (exec sample_silent_api sample_schedule)) =
    [Fetch (url_of MultipleFacts)] /\
  run MultipleFacts sample_silent_api = ([Fetch (url_of MultipleFacts)], Pending).
Proof.
  apply (unanswered_request_stays_silent sample_silent_api sample_schedule
           MultipleFacts); reflexivity.
Defined.

Lemma news_after_completion (r : report) (net : transport) (level : nat) :
  2 <= level -> news r net level = [].
Proof.
  intros H. pose proof (progress_step r net level) as E.
  rewrite (progress_full r net (S level)) in E by lia.
  rewrite (progress_full r net level) in E by lia.
  rewrite <- (app_nil_r (trace (run r net))) in E at 1.
  apply app_inv_head in E. now symmetry.
Qed.

Lemma logs_news (r : report) (net : transport) (level : nat) :
  logs (news r net level) =
    if Nat.eqb level 1 then logs (trace (run r net)) else [].
Proof.
  destruct level as [|[|level]]; cbn [Nat.eqb].
  - apply logs_news_zero.
  - apply logs_news_one.
  - rewrite news_after_completion by lia. reflexivity.
Qed.

Lemma completions_snoc (schedule : list report) (r : report) :
  completions (schedule ++ [r]) =
    (completions schedule ++
     (if Nat.eqb (count_occ report_eq_dec schedule r) 1 then [r] else []))%list.
Proof.
  unfold completions. rewrite rev_app_distr. cbn [rev app completions_rev].
  now rewrite count_occ_rev.
Qed.

Lemma logs_exec (net : transport) (schedule : list report) :
  logs (shown (console (exec net schedule))) =
    baseUrlLine ::
    flat_map (fun r => logs (trace (run r net))) (completions schedule).
Proof.
  induction schedule as [|x schedule IH] using rev_ind.
  - unfold exec. cbn [fold_left start console]. rewrite !progress_zero. reflexivity.
  - rewrite exec_snoc, completions_snoc. cbn [deliver console]. unfold shown in *.
    rewrite map_app, logs_app, IH, flat_map_app.
    pose proof (shown_tagged x (news x net (delivered (exec net schedule) x))) as E.
    unfold shown in E. rewrite E, logs_news, delivered_count.
    destruct (Nat.eqb (count_occ report_eq_dec schedule x) 1); cbn [flat_map].
    + now rewrite app_nil_r.
    + reflexivity.
Qed.

Lemma in_completions (schedule : list report) (r : report) :
  In r (completions schedule) <-> 2 <= count_occ report_eq_dec schedule r.
Proof.
  induction schedule as [|x schedule IH] using rev_ind.
  - cbn. split; [intros [] | lia].
  - rewrite completions_snoc, in_app_iff, IH, count_occ_app. cbn [count_occ].
    destruct (report_eq_dec x r) as [->|Hne].
    + destruct (Nat.eqb_spec (count_occ report_eq_dec schedule r) 1) as [E|E].
      * cbn [In]. split; [lia | intros _; right; left; reflexivity].
      * cbn [In]. split; [intros [H|[]]; lia | intros H; left; lia].
    + destruct (Nat.eqb (count_occ report_eq_dec schedule x) 1); cbn [In].
      * split; [intros [H|[H|[]]]; [lia | contradiction] | intros H; left; lia].
      * split; [intros [H|[]]; lia | intros H; left; lia].
Qed.

Lemma completions_NoDup (schedule : list report) : NoDup (completions schedule).
Proof.
  induction schedule as [|x schedule IH] using rev_ind.
  - constructor.
  - rewrite completions_snoc.
    destruct (Nat.eqb_spec (count_occ report_eq_dec schedule x) 1) as [E|E].
    + apply NoDup_app; [exact IH | repeat constructor; intros [] |].
      intros r Hr [<-|[]]. apply in_completions in Hr. lia.
    + now rewrite app_nil_r.
Qed.

(** X12.  Under every order of arrivals the standard output of the script
    is its base-URL line followed by the whole output of each report whose
    body has arrived (its second arrival), one report after the other in the
    order of those arrivals: the lines of two reports never interleave, and
    no report prints twice. *)
Theorem reports_never_interleave (net : transport) (schedule : list report) :
  logs (shown (console (exec net schedule))) =
    baseUrlLine ::
    flat_map (fun r => logs (trace (run r net))) (completions schedule) /\
  NoDup (completions schedule) /\
  (forall r, In r (completions schedule) <->
             2 <= count_occ report_eq_dec schedule r).
Proof.
  split; [apply logs_exec|]. split; [apply completions_NoDup|].
  intros r. apply in_completions.
Qed.

Lemma stdout_logs (inspect : value -> string) (t : list event) :
  stdout inspect (logs t) = stdout inspect t.
Proof.
  unfold logs. induction t as [|ev t IH]; [reflexivity|].
  destruct ev; cbn [filter is_log stdout]; rewrite IH; reflexivity.
Qed.

Lemma stdout_listing (inspect : value -> string) (c : listing) (net : transport)
    (resp : Response) (fields : list (string * value)) (recs : list value)
    (texts : list string) :
  net (url_of (listing_report c)) = FetchResolved resp ->
  body resp = BodyJson (VObj fields) ->
  lookup "data" fields = Some (VArr recs) ->
  map (text_of (listing_key c)) recs = map Some texts ->
  stdout inspect (trace (run (listing_report c) net)) =
    listing_header c ++ nl ++ numbered_text 0 texts.
Proof.
  intros Hnet Hbody Hdata Htexts.
  rewrite (listing_run c net resp fields recs texts Hnet Hbody Hdata Htexts).
  cbn [trace fst stdout]. rewrite stdout_numbered_lines. reflexivity.
Qed.

(** X13.  The whole script, when all three requests succeed with well-formed
    bodies and the bodies arrive in source order: standard output is the
    base-URL line, the random fact under its header, a blank line, the
    "3 Random Cat Facts:" header with one numbered line per fact, a blank
    line, and the "List of Cat Breeds:" header with one numbered line per
    breed. *)
Theorem script_output_in_source_order (inspect : value -> string) (net : transport)
    (schedule : list report)
    (resp1 resp2 resp3 : Response) (fields1 fields2 fields3 : list (string * value))
    (f : string) (recs2 recs3 : list value) (facts breeds : list string) :
  completions schedule = [RandomFact; MultipleFacts; CatBreeds] ->
  net randomFactUrl = FetchResolved resp1 ->
  body resp1 = BodyJson (VObj fields1) ->
  lookup "fact" fields1 = Some (VStr f) ->
  net multipleFactsUrl = FetchResolved resp2 ->
  body resp2 = BodyJson (VObj fields2) ->
  lookup "data" fields2 = Some (VArr recs2) ->
  map (text_of "fact") recs2 = map Some facts ->
  net catBreedsUrl = FetchResolved resp3 ->
  body resp3 = BodyJson (VObj fields3) ->
  lookup "data" fields3 = Some (VArr recs3) ->
  map (text_of "breed") recs3 = map Some breeds ->
  stdout inspect (shown (console (exec net schedule))) =
    "Base URL set up for CatFacts API: https://catfact.ninja" ++ nl ++
    "Random Cat Fact:" ++ nl ++ f ++ nl ++
    nl ++ "3 Random Cat Facts:" ++ nl ++ numbered_text 0 facts ++
    nl ++ "List of Cat Breeds:" ++ nl ++ numbered_text 0 breeds.
Proof.
  intros Hsched Hn1 Hb1 Hf Hn2 Hb2 Hd2 Ht2 Hn3 Hb3 Hd3 Ht3.
  rewrite <- stdout_logs, logs_exec, Hsched. cbn [flat_map].
  rewrite app_nil_r.
  change (baseUrlLine :: ?l)%list with ([baseUrlLine] ++ l)%list.
  rewrite !stdout_app, !stdout_logs.
  pose proof (stdout_listing inspect Facts net resp2 fields2 recs2 facts
                Hn2 Hb2 Hd2 Ht2) as E2.
  pose proof (stdout_listing inspect Breeds net resp3 fields3 recs3 breeds
                Hn3 Hb3 Hd3 Ht3) as E3.
  cbn [listing_report listing_header] in E2, E3. rewrite E2, E3.
  pose proof (run_resolved RandomFact net resp1 _ Hn1 Hb1) as E.
  cbn [projection_of url_of label_of] in E.
  unfold showRandomFact, get in E. rewrite Hf in E. cbn in E.
  cbn [run]. rewrite E.
  cbn [trace fst stdout format_args map format_arg String.concat].
  rewrite !string_app_assoc. reflexivity.
Qed.

Lemma script_output_in_source_order_witness :
  stdout (fun _ => EmptyString)
    (shown (console (exec (sample_api sample_facts_answer sample_breeds_answer)
                       [MultipleFacts; RandomFact; CatBreeds;
                        RandomFact; MultipleFacts; CatBreeds]))) =
    "Base URL set up for CatFacts API: https://catfact.ninja" ++ nl ++
    "Random Cat Fact:" ++ nl ++ "Cats sleep 70% of their lives." ++ nl ++
    nl ++ "3 Random Cat Facts:" ++ nl ++ numbered_text 0 ["B"; "A"; "B"] ++
    nl ++ "List of Cat Breeds:" ++ nl ++ numbered_text 0 ["Abyssinian"; "Aegean"].
Proof.
  refine (script_output_in_source_order (fun _ => EmptyString)
            (sample_api sample_facts_answer sample_breeds_answer)
            [MultipleFacts; RandomFact; CatBreeds; RandomFact; MultipleFacts; CatBreeds]
            (mkResponse 200 (BodyJson sample_fact_body))
            (mkResponse 200 (BodyJson sample_three_facts))
            (mkResponse 200 (BodyJson sample_breeds))
            _ _ _ "Cats sleep 70% of their lives." _ _ ["B"; "A"; "B"]
            ["Abyssinian"; "Aegean"]
            _ eq_refl eq_refl _ eq_refl eq_refl _ _ eq_refl eq_refl _ _);
    reflexivity.
Defined.

(** ** Firing and completion order *)

Lemma completions_of_NoDup (order : list report) :
  NoDup order -> completions order = [].
Proof.
  intros Hnd. destruct (completions order) as [|r l] eqn:E; [reflexivity|].
  assert (Hin : In r (completions order)) by (rewrite E; now left).
  apply in_completions in Hin.
  pose proof (proj1 (NoDup_count_occ report_eq_dec order) Hnd r). lia.
Qed.

Lemma completions_second_round (order : list report) :
  NoDup order ->
  forall pre suf, order = (pre ++ suf)%list -> completions (order ++ pre) = pre.
Proof.
  intros Hnd pre. induction pre as [|x pre IH] using rev_ind; intros suf Horder.
  - rewrite app_nil_r. apply completions_of_NoDup, Hnd.
  - rewrite <- app_assoc in Horder. cbn [app] in Horder.
    rewrite app_assoc, completions_snoc, (IH (x :: suf) Horder), count_occ_app.
    assert (Hone : count_occ report_eq_dec order x = 1).
    { apply (proj1 (NoDup_count_occ' report_eq_dec order) Hnd).
      rewrite Horder. apply in_or_app. right. now left. }
    assert (Hzero : count_occ report_eq_dec pre x = 0).
    { apply count_occ_not_In. intros Hin.
      rewrite Horder in Hnd. apply NoDup_remove_2 in Hnd.
      apply Hnd, in_or_app. now left. }
    rewrite Hone, Hzero. reflexivity.
Qed.

Lemma run_prints_header (r : report) (net : transport) (resp : Response) (v : value) :
  net (url_of r) = FetchResolved resp ->
  body resp = BodyJson v ->
  exists lines, logs (trace (run r net)) = Log [VStr (header_of r)] :: lines.
Proof.
  intros Hnet Hbody. rewrite run_of_attempt, (attempt_resolved r net resp v Hnet Hbody).
  destruct (projection_header r v) as [lines [-> _]]. cbn [outcome trace fst snd].
  destruct (outcome (projection_of r v)); cbn [trace fst];
    rewrite ?logs_app; cbn; eexists; reflexivity.
Qed.

(** C9, what fails.  The response of the single-fact report arrives first
    (its body read has started, the breeds report is still waiting for its
    response), yet the breeds report prints first, because its body is the
    first to be complete. *)
Lemma first_response_prints_second :
  own RandomFact
    (console (exec (sample_api sample_facts_answer sample_breeds_answer)
                [RandomFact])) = [Fetch randomFactUrl; BodyRead] /\
  own CatBreeds
    (console (exec (sample_api sample_facts_answer sample_breeds_answer)
                [RandomFact])) = [Fetch catBreedsUrl] /\
  logs (shown (console (exec (sample_api sample_facts_answer sample_breeds_answer)
                          [RandomFact; CatBreeds; CatBreeds; RandomFact]))) =
    [baseUrlLine;
     Log [VStr catBreedsHeader]; Log [VStr "1. Abyssinian"]; Log [VStr "2. Aegean"];
     Log [VStr "Random Cat Fact:"]; Log [VStr "Cats sleep 70% of their lives."]].
Proof. repeat split. Qed.

(** C9, as the code has it.  The synchronous part of the script issues the
    three requests in source order (single fact, multiple facts, breeds)
    without looking at any answer, and every later console entry comes after
    them.  The completions are not ordered: under every order of arrivals
    the reports print, each one whole, in the order in which their bodies
    arrive (the second arrival of each report), every order of the reports
    being possible; and a report whose body has decoded prints its header
    before anything else. *)
Theorem fired_in_order_completed_in_any (net : transport)
    (schedule order : list report) :
  NoDup order ->
  shown (console (start net)) =
    [baseUrlLine; Fetch randomFactUrl; Fetch multipleFactsUrl; Fetch catBreedsUrl] /\
  (exists later,
      shown (console (exec net schedule)) =
        (shown (console (start net)) ++ later)%list) /\
  logs (shown (console (exec net schedule))) =
    baseUrlLine ::
    flat_map (fun r => logs (trace (run r net))) (completions schedule) /\
  completions (order ++ order) = order /\
  (forall r resp v,
      net (url_of r) = FetchResolved resp -> body resp = BodyJson v ->
      exists lines, logs (trace (run r net)) = Log [VStr (header_of r)] :: lines).
Proof.
  intros Hnd.
  assert (Hstart : shown (console (start net)) =
                   [baseUrlLine; Fetch randomFactUrl; Fetch multipleFactsUrl;
                    Fetch catBreedsUrl]).
  { cbn [start console]. rewrite !progress_zero. reflexivity. }
  split; [exact Hstart|]. split; [|split; [apply logs_exec|split]].
  - induction schedule as [|x schedule [later IH]] using rev_ind.
    + exists []. now rewrite app_nil_r.
    + rewrite exec_snoc. cbn [deliver console]. unfold shown in *.
      rewrite map_app, IH, <- app_assoc. eexists; reflexivity.
  - apply (completions_second_round order Hnd order []). now rewrite app_nil_r.
  - intros r resp v. apply run_prints_header.
Qed.

Lemma sample_order_NoDup : NoDup sample_order.
Proof.
  unfold sample_order. repeat constructor; cbn; intuition discriminate.
Defined.

Lemma fired_in_order_completed_in_any_witness :
  shown (console (start (sample_api sample_facts_answer sample_breeds_answer))) =
    [baseUrlLine; Fetch randomFactUrl; Fetch multipleFactsUrl; Fetch catBreedsUrl] /\
  logs (shown (console (exec (sample_api sample_facts_answer sample_breeds_answer)
                          sample_schedule))) =
    baseUrlLine ::
    flat_map (fun r => logs (trace (run r (sample_api sample_facts_answer
                                             sample_breeds_answer))))
      (completions sample_schedule) /\
  completions (sample_order ++ sample_order) = sample_order /\
  (exists lines,
      logs (trace (run CatBreeds (sample_api sample_facts_answer
                                    sample_breeds_answer))) =
        Log [VStr (header_of CatBreeds)] :: lines).
Proof.
  destruct (fired_in_order_completed_in_any
              (sample_api sample_facts_answer sample_breeds_answer)
              sample_schedule sample_order sample_order_NoDup)
    as [H1 [_ [H3 [H4 H5]]]].
  split; [exact H1|]. split; [exact H3|]. split; [exact H4|].
  apply (H5 CatBreeds (mkResponse 200 (BodyJson sample_breeds)) sample_breeds);
    reflexivity.
Defined.
